(** * Lumi technical test: front-end forms and billet router

    A shallow embedding of
    - [front/src/components/Forms/SignIn.tsx]
      (modules [SignIn], [SignInFields], [SignInPopup]),
    - the profile form component (module [Profile]),
    - [back/src/modules/billet/billet.routes.ts] (module [Billet]),
    - [front/src/app/(auth-routes)/logout/page.tsx] (module [Logout]),
    and the properties of their handlers. *)

From Stdlib Require Import ZArith Ascii String Strings.Byte List Bool Lia.
Import ListNotations.

Local Open Scope string_scope.
Local Open Scope Z_scope.

(** ** JavaScript values *)

Module Js.

(** A value of type [A | null | undefined]. *)
Inductive nullable (A : Type) : Type :=
| undefined
| null
| val (a : A).
Arguments undefined {A}.
Arguments null {A}.
Arguments val {A} a.

(** Truthiness of a string: only the empty string is falsy. *)
Definition truthy_string (s : string) : bool := negb (s =? "")%string.

(** Truthiness of [string | null | undefined]. *)
Definition truthy (v : nullable string) : bool :=
  match v with
  | val s => truthy_string s
  | _ => false
  end.

(** Truthiness of [string | null] (or [string | undefined]), with [None]
    for the missing value. *)
Definition truthy_opt (v : option string) : bool :=
  match v with
  | Some s => truthy_string s
  | None => false
  end.

(** [a || b] for [a : string | undefined] and a string [b]. *)
Definition or_string (a : nullable string) (b : string) : string :=
  match a with
  | val s => if truthy_string s then s else b
  | _ => b
  end.

(** [a || undefined] for [a : string | null], with [None] for [null]: the
    result is the string when it is truthy and [undefined] otherwise,
    never [null]. *)
Definition or_undefined (a : option string) : nullable string :=
  match a with
  | Some s => if truthy_string s then val s else undefined
  | None => undefined
  end.

(** Strict equality [a === b] of two [string | undefined] values. *)
Definition strict_eq (a b : option string) : bool :=
  match a, b with
  | Some x, Some y => (x =? y)%string
  | None, None => true
  | _, _ => false
  end.

End Js.

(** ** The sign-in form (SignIn.tsx) *)

Module SignIn.
Import Js.

(** [interface SignInData]. *)
Record SignInData := { email : string; password : string }.

(** The options object handed to next-auth's [signIn]:
    [{ ...data, recaptchaToken, redirect: false }]. *)
Record SignInOptions := {
  opt_email : string;
  opt_password : string;
  opt_recaptchaToken : nullable string;
  opt_redirect : bool
}.

(** The part of next-auth's [SignInResponse] the handler reads. *)
Record SignInResponse := { resp_error : nullable string }.

(** The component state ([useState]). *)
Record State := {
  showPassword : bool;
  error : string;
  isSubmitting : bool
}.

Definition initial : State :=
  {| showPassword := true; error := ""; isSubmitting := false |}.

(** What a run of the handler does, in order. *)
Inductive Event :=
| SetIsSubmitting (b : bool)
| SetError (msg : string)
| ExecuteAsync
| RecaptchaReset
| CallSignIn (provider : string) (opts : SignInOptions)
| RouterReplace (href : string).

(** An awaited promise resolves or rejects; a call returns or throws. *)
Inductive Settled (A : Type) :=
| Resolved (a : A)
| Rejected.
Arguments Resolved {A} a.
Arguments Rejected {A}.

(** The outside world of one submission: the CAPTCHA widget behind
    [recaptchaRef] and the authentication provider behind [signIn]. *)
Record Env := {
  (** [recaptchaRef.current], [None] while the ref is [null];
      the widget's [executeAsync()] settles with a token or [null]. *)
  recaptcha_current : option (Settled (nullable string));
  (** [recaptchaRef.current.reset()]. *)
  recaptcha_reset : Settled unit;
  (** [signIn(...)] settles with a response or [undefined]. *)
  signIn_result : Settled (option SignInResponse)
}.

(** *** Completions: a statement ends normally, by [return] or by [throw] *)

Inductive Completion (A : Type) :=
| Normal (a : A)
| Return
| Throw.
Arguments Normal {A} a.
Arguments Return {A}.
Arguments Throw {A}.

(** The handler's world: component state and the log of events. *)
Definition World : Type := State * list Event.

Definition M (A : Type) : Type := World -> Completion A * World.

Definition ret {A} (a : A) : M A := fun w => (Normal a, w).

Definition bind {A B} (m : M A) (k : A -> M B) : M B :=
  fun w =>
    match m w with
    | (Normal a, w') => k a w'
    | (Return, w') => (Return, w')
    | (Throw, w') => (Throw, w')
    end.

Definition return_ {A} : M A := fun w => (Return, w).

Notation "x <- m ;; k" := (bind m (fun x => k))
  (at level 61, m at next level, right associativity).
Notation "m ;; k" := (bind m (fun _ => k))
  (at level 61, right associativity).

(** [try { body } catch (err) { handler } finally { finalizer }]. *)
Definition try_catch_finally (body handler finalizer : M unit) : M unit :=
  fun w =>
    let '(c, w1) :=
      match body w with
      | (Throw, w') => handler w'
      | r => r
      end in
    match finalizer w1 with
    | (Normal _, w2) => (c, w2)
    | r => r
    end.

Definition log (e : Event) : M unit :=
  fun '(st, tr) => (Normal tt, (st, (tr ++ [e])%list)).

Definition setIsSubmitting (b : bool) : M unit :=
  fun '(st, tr) =>
    (Normal tt,
     ({| showPassword := showPassword st; error := error st;
         isSubmitting := b |},
      (tr ++ [SetIsSubmitting b])%list)).

Definition setError (msg : string) : M unit :=
  fun '(st, tr) =>
    (Normal tt,
     ({| showPassword := showPassword st; error := msg;
         isSubmitting := isSubmitting st |},
      (tr ++ [SetError msg])%list)).

Definition settle {A} (s : Settled A) : M A :=
  fun w =>
    match s with
    | Resolved a => (Normal a, w)
    | Rejected => (Throw, w)
    end.

(** [await recaptchaRef.current?.executeAsync()]. *)
Definition executeAsync (env : Env) : M (nullable string) :=
  match recaptcha_current env with
  | None => ret undefined
  | Some r => log ExecuteAsync ;; settle r
  end.

(** [recaptchaRef.current?.reset()]. *)
Definition reset (env : Env) : M unit :=
  match recaptcha_current env with
  | None => ret tt
  | Some _ => log RecaptchaReset ;; settle (recaptcha_reset env)
  end.

(** [await signIn(provider, opts)]. *)
Definition signIn (env : Env) (provider : string) (opts : SignInOptions)
  : M (option SignInResponse) :=
  log (CallSignIn provider opts) ;; settle (signIn_result env).

(** [router.replace(href)]. *)
Definition router_replace (href : string) : M unit :=
  log (RouterReplace href).

(** [response?.error]. *)
Definition response_error (response : option SignInResponse)
  : nullable string :=
  match response with
  | None => undefined
  | Some r => resp_error r
  end.

Definition captcha_failed : string :=
  "Falha na verificação de segurança. Por favor, tente novamente.".

Definition signin_failed : string :=
  "Falha ao entrar. Por favor, tente novamente.".

(** The string held by a truthy value. *)
Definition as_string (v : nullable string) : string :=
  match v with
  | val s => s
  | _ => ""
  end.

(** [if (c) { body }] with no [else]. *)
Definition when (c : bool) (body : M unit) : M unit :=
  if c then body else ret tt.

(** [handleSignIn]. *)
Definition handleSignIn (env : Env) (data : SignInData) : M unit :=
  try_catch_finally
    (setIsSubmitting true ;;
     recaptchaToken <- executeAsync env ;;
     reset env ;;
     when (negb (truthy recaptchaToken))
       (setError captcha_failed ;; return_) ;;
     response <- signIn env "user-login"
       {| opt_email := email data;
          opt_password := password data;
          opt_recaptchaToken := recaptchaToken;
          opt_redirect := false |} ;;
     when (truthy (response_error response))
       (setError (as_string (response_error response)) ;; return_) ;;
     router_replace "/user/home")
    (setError signin_failed)
    (setIsSubmitting false).

(** One submission from state [st]: the state and the events after it. *)
Definition run (env : Env) (data : SignInData) (st : State) : World :=
  snd (handleSignIn env data (st, [])).

(** [togglePasswordVisibility]. *)
Definition togglePasswordVisibility (st : State) : State :=
  {| showPassword := negb (showPassword st); error := error st;
     isSubmitting := isSubmitting st |}.

(** [{error && <PopUpError message={error} onClose={...} />}]: the popup is
    rendered exactly while [error] is truthy. *)
Definition popup_rendered (st : State) : bool := truthy_string (error st).

(** The popup's [onClose]: [() => setError('')]. *)
Definition onClose (st : State) : State :=
  {| showPassword := showPassword st; error := "";
     isSubmitting := isSubmitting st |}.

(** *** Observations on a submission *)

(** The token a submission obtains from the CAPTCHA widget: none when the
    ref is empty, when [executeAsync] rejects, or when it resolves with
    [null], [undefined] or the empty string. *)
Definition token_obtained (env : Env) : option string :=
  match recaptcha_current env with
  | Some (Resolved (val s)) => if truthy_string s then Some s else None
  | _ => None
  end.

(** The error [signIn] reports: a truthy [response.error]. *)
Definition signIn_error (env : Env) : option string :=
  match signIn_result env with
  | Resolved (Some r) =>
      match resp_error r with
      | val e => if truthy_string e then Some e else None
      | _ => None
      end
  | _ => None
  end.

(** A submission succeeds when the widget gives a token, [reset] returns,
    and [signIn] resolves without an error. *)
Definition succeeds (env : Env) : bool :=
  match token_obtained env, recaptcha_reset env, signIn_result env with
  | Some _, Resolved _, Resolved _ =>
      match signIn_error env with Some _ => false | None => true end
  | _, _, _ => false
  end.

Definition is_SetError (e : Event) : bool :=
  match e with SetError _ => true | _ => false end.

Definition is_RouterReplace (e : Event) : bool :=
  match e with RouterReplace _ => true | _ => false end.

End SignIn.

(** ** The profile form *)

Module Profile.
Import Js.

(** [interface ProfileData].  [id] is a string at its type; the cast
    [session?.user?.id as string] can put [undefined] there. *)
Record ProfileData := {
  id : option string;
  name : string;
  email : string;
  profilePicture : nullable string   (* profilePicture?: string *)
}.

(** The browser's [File], as far as the form looks at it. *)
Record File := { file_name : string; size : Z }.

Definition placeholder : string :=
  "/assets/icons/profile-default-placeholder.png".

(** The component state: the [useState] cells, the watched form values,
    the query and mutation status, and the timers its effects hold. *)
Record State := {
  session_user_id : option string;  (* session?.user?.id *)
  watchedName : option string;      (* watch('name'), undefined at first *)
  watchedEmail : option string;     (* watch('email') *)
  preview : option string;          (* string; null after a failed read *)
  selectedFile : option string;     (* string | null *)
  error : option string;            (* string | null *)
  success : option string;          (* string | null *)
  initialData : option ProfileData; (* ProfileData | null *)
  data : option ProfileData;        (* useQuery's data *)
  isPending : bool;                 (* useMutation's isPending *)
  error_timer : option Z;           (* ms left on the [error] effect's timer *)
  success_timer : option Z          (* ms left on the [success] effect's timer *)
}.

Definition initial (session : option string) : State :=
  {| session_user_id := session;
     watchedName := None; watchedEmail := None;
     preview := Some placeholder;
     selectedFile := None; error := None; success := None;
     initialData := None; data := None; isPending := false;
     error_timer := None; success_timer := None |}.

(** *** Field updates *)

Definition with_watchedName (v : option string) (st : State) : State :=
  {| session_user_id := session_user_id st;
     watchedName := v; watchedEmail := watchedEmail st;
     preview := preview st; selectedFile := selectedFile st;
     error := error st; success := success st;
     initialData := initialData st; data := data st;
     isPending := isPending st;
     error_timer := error_timer st; success_timer := success_timer st |}.

Definition with_watchedEmail (v : option string) (st : State) : State :=
  {| session_user_id := session_user_id st;
     watchedName := watchedName st; watchedEmail := v;
     preview := preview st; selectedFile := selectedFile st;
     error := error st; success := success st;
     initialData := initialData st; data := data st;
     isPending := isPending st;
     error_timer := error_timer st; success_timer := success_timer st |}.

Definition setPreview (v : option string) (st : State) : State :=
  {| session_user_id := session_user_id st;
     watchedName := watchedName st; watchedEmail := watchedEmail st;
     preview := v; selectedFile := selectedFile st;
     error := error st; success := success st;
     initialData := initialData st; data := data st;
     isPending := isPending st;
     error_timer := error_timer st; success_timer := success_timer st |}.

Definition setSelectedFile (v : option string) (st : State) : State :=
  {| session_user_id := session_user_id st;
     watchedName := watchedName st; watchedEmail := watchedEmail st;
     preview := preview st; selectedFile := v;
     error := error st; success := success st;
     initialData := initialData st; data := data st;
     isPending := isPending st;
     error_timer := error_timer st; success_timer := success_timer st |}.

Definition setInitialData (v : option ProfileData) (st : State) : State :=
  {| session_user_id := session_user_id st;
     watchedName := watchedName st; watchedEmail := watchedEmail st;
     preview := preview st; selectedFile := selectedFile st;
     error := error st; success := success st;
     initialData := v; data := data st;
     isPending := isPending st;
     error_timer := error_timer st; success_timer := success_timer st |}.

Definition with_data (v : option ProfileData) (st : State) : State :=
  {| session_user_id := session_user_id st;
     watchedName := watchedName st; watchedEmail := watchedEmail st;
     preview := preview st; selectedFile := selectedFile st;
     error := error st; success := success st;
     initialData := initialData st; data := v;
     isPending := isPending st;
     error_timer := error_timer st; success_timer := success_timer st |}.

Definition with_isPending (b : bool) (st : State) : State :=
  {| session_user_id := session_user_id st;
     watchedName := watchedName st; watchedEmail := watchedEmail st;
     preview := preview st; selectedFile := selectedFile st;
     error := error st; success := success st;
     initialData := initialData st; data := data st;
     isPending := b;
     error_timer := error_timer st; success_timer := success_timer st |}.

Definition with_error (v : option string) (t : option Z) (st : State)
  : State :=
  {| session_user_id := session_user_id st;
     watchedName := watchedName st; watchedEmail := watchedEmail st;
     preview := preview st; selectedFile := selectedFile st;
     error := v; success := success st;
     initialData := initialData st; data := data st;
     isPending := isPending st;
     error_timer := t; success_timer := success_timer st |}.

Definition with_success (v : option string) (t : option Z) (st : State)
  : State :=
  {| session_user_id := session_user_id st;
     watchedName := watchedName st; watchedEmail := watchedEmail st;
     preview := preview st; selectedFile := selectedFile st;
     error := error st; success := v;
     initialData := initialData st; data := data st;
     isPending := isPending st;
     error_timer := error_timer st; success_timer := t |}.

(** [Object.is] on [string | null]: when a state setter gets the value the
    cell already holds, React renders nothing and runs no effect. *)
Definition same (a b : option string) : bool := strict_eq a b.

(** The auto-dismiss delay of both effects, in ms. *)
Definition dismiss_delay : Z := 5000.

(** The timer an effect [if (v) { setTimeout(clear, 5000) }] holds after
    running for the value [v]. *)
Definition effect_timer (v : option string) : option Z :=
  if truthy_opt v then Some dismiss_delay else None.

(** [setError(v)], with the render and the [useEffect(..., [error])] it
    triggers: the effect's cleanup clears the previous timer, and the
    effect starts a fresh one when the new value is truthy. *)
Definition setError (v : option string) (st : State) : State :=
  if same v (error st) then st else with_error v (effect_timer v) st.

(** [setSuccess(v)], with [useEffect(..., [success])]. *)
Definition setSuccess (v : option string) (st : State) : State :=
  if same v (success st) then st else with_success v (effect_timer v) st.

(** *** Handlers *)

(** The effect on [data]: a fetched profile fills the form, the preview
    and [initialData]. *)
Definition data_effect (st : State) : State :=
  match data st with
  | Some d =>
      setInitialData (Some d)
        (setPreview (Some (or_string (profilePicture d) placeholder))
           (with_watchedEmail (Some (email d))
              (with_watchedName (Some (name d)) st)))
  | None => st
  end.

(** Deep equality of two profiles. *)
Definition ProfileData_eqb (a b : ProfileData) : bool :=
  strict_eq (id a) (id b)
  && (name a =? name b)%string
  && (email a =? email b)%string
  && match profilePicture a, profilePicture b with
     | undefined, undefined => true
     | null, null => true
     | val x, val y => (x =? y)%string
     | _, _ => false
     end.

(** The profile query delivers [d]; it runs only when
    [!!session?.user?.id].  The query keeps the object it already has when
    the delivered profile is deeply equal to it, and the effect depends on
    the identity of [data]: it runs only when the profile differs. *)
Definition query_data (d : ProfileData) (st : State) : State :=
  if truthy_opt (session_user_id st)
  then match data st with
       | Some old =>
           if ProfileData_eqb old d then st
           else data_effect (with_data (Some d) st)
       | None => data_effect (with_data (Some d) st)
       end
  else st.

(** [e.target.files?.[0]]. *)
Definition first_file (files : option (list File)) : option File :=
  match files with
  | Some (f :: _) => Some f
  | _ => None
  end.

Definition size_error : string := "Image size should not exceed 5mb".

(** [handleImageChange]: the state after the handler and the file it
    handed to [reader.readAsDataURL], if any. *)
Definition handleImageChange (files : option (list File)) (st : State)
  : State * option File :=
  match first_file files with
  | Some file =>
      if size file >? 5000 * 1024
      then (setError (Some size_error) st, None)
      else (st, Some file)
  | None => (st, None)
  end.

(** [reader.onloadend], with [reader.result] ([null] after a failed
    read). *)
Definition onloadend (result : option string) (st : State) : State :=
  let base64String := result in
  setPreview base64String (setSelectedFile base64String st).

(** The body [updateUserProfile] is called with. *)
Record UpdateBody := {
  body_name : string;
  body_email : string;
  body_profilePicture : nullable string
}.

(** A call of [updateUserProfile(userId, body)]. *)
Inductive Request :=
| updateUserProfile (userId : option string) (body : UpdateBody).

(** [mutationFn]. *)
Definition mutationFn (st : State) (d : ProfileData) : Request :=
  updateUserProfile (session_user_id st)
    {| body_name := name d;
       body_email := email d;
       body_profilePicture := profilePicture d |}.

(** [mutate(variables)]: the mutation becomes pending and [mutationFn]
    runs. *)
Definition mutate (d : ProfileData) (st : State) : State * list Request :=
  (with_isPending true st, [mutationFn st d]).

(** The mutation's [onSuccess] and [onError]. *)
Definition onSuccess (st : State) : State :=
  setSuccess (Some "Profile updated successfully") (with_isPending false st).

Definition onError (st : State) : State :=
  setError (Some "Failed to update profile") (with_isPending false st).

(** The values react-hook-form passes to [onSubmit]. *)
Record FormValues := { form_name : string; form_email : string }.

(** [onSubmit]; [mutate] does not throw, so the [catch] branch is never
    taken. *)
Definition onSubmit (d : FormValues) (st : State)
  : State * list Request :=
  mutate {| id := session_user_id st;
            name := form_name d;
            email := form_email d;
            profilePicture := or_undefined (selectedFile st) |} st.

(** [isFormChanged]. *)
Definition isFormChanged (st : State) : bool :=
  match initialData st with
  | None => false
  | Some i =>
      negb (strict_eq (watchedName st) (Some (name i)))
      || negb (strict_eq (watchedEmail st) (Some (email i)))
      || match selectedFile st with Some _ => true | None => false end
  end.

(** The [isDisabled] prop: [!data || !isFormChanged()]. *)
Definition isDisabled (st : State) : bool :=
  match data st with Some _ => false | None => true end
  || negb (isFormChanged st).

(** [SubmitButton]: [disabled={isPending || isDisabled}]. *)
Definition SubmitButton_disabled (st : State) : bool :=
  isPending st || isDisabled st.

(** [handleSubmit(onSubmit)]: both fields are registered as required, and
    [onSubmit] gets the form values only when both are filled in. *)
Definition handleSubmit (st : State) : State * list Request :=
  match watchedName st, watchedEmail st with
  | Some n, Some e =>
      if truthy_string n && truthy_string e
      then onSubmit {| form_name := n; form_email := e |} st
      else (st, [])
  | _, _ => (st, [])
  end.

(** The user activates the submit button; a disabled button submits
    nothing. *)
Definition submit (st : State) : State * list Request :=
  if SubmitButton_disabled st then (st, []) else handleSubmit st.

(** *** Time *)

(** [ms] milliseconds pass: a timer that is due runs its callback,
    [setError(null)] or [setSuccess(null)]. *)
Definition elapse_error (ms : Z) (st : State) : State :=
  match error_timer st with
  | Some r =>
      if r <=? ms
      then setError None (with_error (error st) None st)
      else with_error (error st) (Some (r - ms)) st
  | None => st
  end.

Definition elapse_success (ms : Z) (st : State) : State :=
  match success_timer st with
  | Some r =>
      if r <=? ms
      then setSuccess None (with_success (success st) None st)
      else with_success (success st) (Some (r - ms)) st
  | None => st
  end.

Definition elapse (ms : Z) (st : State) : State :=
  elapse_success ms (elapse_error ms st).

(** *** The component as a transition system *)

Inductive Event :=
| QueryData (d : ProfileData)           (* the profile query resolves *)
| TypeName (v : string)                 (* the user edits a field *)
| TypeEmail (v : string)
| ImageChange (files : option (list File))
| LoadEnd (result : option string)      (* a started reader finishes *)
| Submit
| MutationSuccess
| MutationError
| CloseError                            (* the popups' onClose *)
| CloseSuccess
| Elapse (ms : Z).

Definition dispatch (e : Event) (st : State) : State * list Request :=
  match e with
  | QueryData d => (query_data d st, [])
  | TypeName v => (with_watchedName (Some v) st, [])
  | TypeEmail v => (with_watchedEmail (Some v) st, [])
  | ImageChange files => (fst (handleImageChange files st), [])
  | LoadEnd result => (onloadend result st, [])
  | Submit => submit st
  | MutationSuccess => (onSuccess st, [])
  | MutationError => (onError st, [])
  | CloseError => (setError None st, [])
  | CloseSuccess => (setSuccess None st, [])
  | Elapse ms => (elapse (Z.max 0 ms) st, [])
  end.

(** The state after a sequence of events. *)
Fixpoint run (es : list Event) (st : State) : State :=
  match es with
  | [] => st
  | e :: es' => run es' (fst (dispatch e st))
  end.

(** A file is chosen and its read finishes with [result]. *)
Definition select_image (file : File) (result : option string) (st : State)
  : State :=
  match handleImageChange (Some [file]) st with
  | (st', Some _) => onloadend result st'
  | (st', None) => st'
  end.

(** *** The size cap of the specification *)

(** "5MB", read in binary units (5 MiB) and in decimal units. *)
Definition five_MiB : Z := 5 * 1024 * 1024.
Definition five_MB : Z := 5 * 1000 * 1000.

(** A state is reachable when some sequence of events leads to it from the
    first render. *)
Definition reachable (st : State) : Prop :=
  exists session es, st = run es (initial session).

(** The timer of an effect agrees with the message it watches: no message
    and no timer, or a message and a timer with at most 5000 ms to go. *)
Definition timer_ok (msg : option string) (timer : option Z) : Prop :=
  match msg, timer with
  | None, None => True
  | Some m, Some r => truthy_string m = true /\ 0 < r <= dismiss_delay
  | _, _ => False
  end.

(** Both effects' timers agree with their messages. *)
Definition timers_ok (st : State) : Prop :=
  timer_ok (error st) (error_timer st) /\
  timer_ok (success st) (success_timer st).

End Profile.

(** ** The billet router (billet.routes.ts) *)

Module Billet.

(** The request methods.  The router registers GET, POST and DELETE; a HEAD
    request is answered by a GET route, and an OPTIONS request by the
    router itself.  Any further method behaves as PUT and PATCH do. *)
Inductive Method := GET | POST | PUT | PATCH | DELETE | HEAD | OPTIONS.

Definition Method_eqb (a b : Method) : bool :=
  match a, b with
  | GET, GET | POST, POST | PUT, PUT | PATCH, PATCH | DELETE, DELETE
  | HEAD, HEAD | OPTIONS, OPTIONS => true
  | _, _ => false
  end.

(** The methods of [BilletController] the routes call. *)
Inductive ControllerMethod :=
| getAllBilletsByUserId
| uploadBillet
| getDownloadUrl
| deleteBillet.

(** *** Paths *)

Definition slash : Ascii.ascii := "/"%char.

(** Cuts a path at every ["/"]; [cur] is the piece being read. *)
Fixpoint split (s : string) (cur : string) : list string :=
  match s with
  | EmptyString => [cur]
  | String c rest =>
      if Ascii.eqb c slash then cur :: split rest ""
      else split rest (cur ++ String c "")
  end.

(** Routing is not strict: one ["/"] at the end of a path is ignored. *)
Fixpoint strip_last_empty (l : list string) : list string :=
  match l with
  | [] => []
  | [x] => if (x =? "")%string then [] else [x]
  | x :: rest => x :: strip_last_empty rest
  end.

(** The pieces of a path between its slashes.  A path starts with ["/"];
    an empty piece in the middle (as in [/billet//7]) is kept, and matches
    nothing. *)
Definition segments (path : string) : option (list string) :=
  match split path "" with
  | EmptyString :: rest => Some (strip_last_empty rest)
  | _ => None
  end.

Inductive Segment :=
| Lit (s : string)
| Param (name : string).

(** A route path: [:name] is a parameter, anything else a literal. *)
Definition parse_segment (s : string) : Segment :=
  match s with
  | String ":" name => Param name
  | _ => Lit s
  end.

Definition parse (path : string) : list Segment :=
  match segments path with
  | Some pieces => map parse_segment pieces
  | None => []
  end.

Definition lower_char (c : Ascii.ascii) : Ascii.ascii :=
  let n := Ascii.nat_of_ascii c in
  if ((65 <=? n) && (n <=? 90))%nat then Ascii.ascii_of_nat (n + 32) else c.

Fixpoint lower (s : string) : string :=
  match s with
  | EmptyString => EmptyString
  | String c rest => String (lower_char c) (lower rest)
  end.

(** Matches a route path against the pieces of a URL and collects the raw
    text of each parameter; literals ignore letter case, as the router's
    default, and a parameter takes one non-empty piece. *)
Fixpoint match_path (pat : list Segment) (segs : list string)
  : option (list (string * string)) :=
  match pat, segs with
  | [], [] => Some []
  | Lit l :: pat', s :: segs' =>
      if (lower l =? lower s)%string then match_path pat' segs' else None
  | Param n :: pat', s :: segs' =>
      if (s =? "")%string then None
      else option_map (cons (n, s)) (match_path pat' segs')
  | _, _ => None
  end.

(** *** [decodeURIComponent], which the router applies to each parameter *)

Definition hex_value (c : Ascii.ascii) : option N :=
  let n := N_of_ascii c in
  if ((48 <=? n) && (n <=? 57))%N then Some (n - 48)%N
  else if ((65 <=? n) && (n <=? 70))%N then Some (n - 55)%N
  else if ((97 <=? n) && (n <=? 102))%N then Some (n - 87)%N
  else None.

(** Reads one escape [%XY] at the head of [s]. *)
Definition read_escape (s : string) : option (N * string) :=
  match s with
  | String "%" (String h (String l rest)) =>
      match hex_value h, hex_value l with
      | Some a, Some b => Some ((16 * a + b)%N, rest)
      | _, _ => None
      end
  | _ => None
  end.

(** Reads [n] escapes, the first with a value from [lo] to [hi] and the
    others from 128 to 191: the bytes that continue a UTF-8 sequence. *)
Fixpoint read_continuation (n : nat) (lo hi : N) (s : string)
  : option (string * string) :=
  match n with
  | O => Some (EmptyString, s)
  | S n' =>
      match read_escape s with
      | Some (b, rest) =>
          if ((lo <=? b) && (b <=? hi))%N
          then match read_continuation n' 128 191 rest with
               | Some (bytes, rest') =>
                   Some (String (ascii_of_N b) bytes, rest')
               | None => None
               end
          else None
      | None => None
      end
  end.

(** For the first byte of a UTF-8 sequence: how many bytes follow, and the
    range of the next one (which excludes overlong forms, surrogates and
    code points above 10FFFF). *)
Definition utf8_lead (b : N) : option (nat * N * N) :=
  if ((194 <=? b) && (b <=? 223))%N then Some (1%nat, 128, 191)%N
  else if (b =? 224)%N then Some (2%nat, 160, 191)%N
  else if ((225 <=? b) && (b <=? 236))%N then Some (2%nat, 128, 191)%N
  else if (b =? 237)%N then Some (2%nat, 128, 159)%N
  else if ((238 <=? b) && (b <=? 239))%N then Some (2%nat, 128, 191)%N
  else if (b =? 240)%N then Some (3%nat, 144, 191)%N
  else if ((241 <=? b) && (b <=? 243))%N then Some (3%nat, 128, 191)%N
  else if (b =? 244)%N then Some (3%nat, 128, 143)%N
  else None.

(** Decodes [s] with [fuel] steps; [None] is the [URIError]. *)
Fixpoint decode (fuel : nat) (s : string) : option string :=
  match fuel with
  | O => match s with EmptyString => Some EmptyString | _ => None end
  | S fuel' =>
      match s with
      | EmptyString => Some EmptyString
      | String "%" _ =>
          match read_escape s with
          | Some (b, rest) =>
              if (b <? 128)%N
              then option_map (String (ascii_of_N b)) (decode fuel' rest)
              else match utf8_lead b with
                   | Some (n, lo, hi) =>
                       match read_continuation n lo hi rest with
                       | Some (bytes, rest') =>
                           option_map
                             (fun t => String (ascii_of_N b) (bytes ++ t))
                             (decode fuel' rest')
                       | None => None
                       end
                   | None => None
                   end
          | None => None
          end
      | String c rest => option_map (String c) (decode fuel' rest)
      end
  end.

(** Each step reads at least one character, so the length of the string is
    fuel enough. *)
Definition decodeURIComponent (s : string) : option string :=
  decode (String.length s) s.

(** Decodes every parameter, in order; one failure fails them all. *)
Fixpoint decode_params (raw : list (string * string))
  : option (list (string * string)) :=
  match raw with
  | [] => Some []
  | (n, v) :: rest =>
      match decodeURIComponent v, decode_params rest with
      | Some v', Some rest' => Some ((n, v') :: rest')
      | _, _ => None
      end
  end.

(** *** multer *)

Inductive StorageEngine :=
| memoryStorage
| diskStorage (destination : string).

(** [multer({ storage })]. *)
Record Multer := multer { storage : StorageEngine }.

(** [upload.single(fieldname)]. *)
Inductive Middleware :=
| single (m : Multer) (fieldname : string).

(** *** The router *)

Record Route := {
  method : Method;
  path : string;
  middlewares : list Middleware;
  handler : ControllerMethod
}.

Definition Router : Type := list Route.

(** [Router()]. *)
Definition Router_new : Router := [].

Definition add (m : Method) (p : string) (mws : list Middleware)
  (h : ControllerMethod) (r : Router) : Router :=
  (r ++ [{| method := m; path := p; middlewares := mws; handler := h |}])%list.

(** [router.get(path, ...handlers)] and its siblings. *)
Definition get := add GET.
Definition post := add POST.
Definition delete := add DELETE.

Notation "r '.>' f" := (f r) (at level 50, left associativity, only parsing).

(** [const upload = multer({ storage: multer.memoryStorage() })]. *)
Definition upload : Multer := multer memoryStorage.

(** [billetRouter]. *)
Definition billetRouter : Router :=
  Router_new
    .> get "/billet" [] getAllBilletsByUserId
    .> post "/billet" [single upload "file"] uploadBillet
    .> get "/billet/download/:fileName" [] getDownloadUrl
    .> delete "/billet/:id" [] deleteBillet.

(** *** Requests *)

(** A file part of a multipart body, arriving in chunks. *)
Record Part := {
  part_fieldname : string;
  part_filename : string;
  part_chunks : list (list Byte.byte)
}.

(** A request: its method, the path of its URL, and the file parts of its
    body (none when the body is not multipart).  Bodies that are not well
    formed and the text fields of a body are not modelled. *)
Record Request := {
  req_method : Method;
  req_path : string;
  req_files : list Part
}.

(** Where a storage engine leaves an uploaded file. *)
Inductive Stored :=
| in_memory (buffer : list Byte.byte)
| on_disk (destination filename : string).

(** [req.file]. *)
Record UploadedFile := {
  fieldname : string;
  originalname : string;
  stored : Stored
}.

(** A storage engine consumes the whole stream of a part: the memory
    engine concatenates the chunks into one buffer. *)
Definition handleFile (s : StorageEngine) (p : Part) : Stored :=
  match s with
  | memoryStorage => in_memory (concat (part_chunks p))
  | diskStorage dest => on_disk dest (part_filename p)
  end.

(** The parts multer takes as files: a part without a file name (what a
    browser sends for an empty file input) is skipped. *)
Definition named_files (parts : list Part) : list Part :=
  filter (fun p => negb (part_filename p =? "")%string) parts.

(** A middleware leaves [req.file], or fails the request.  [single] takes
    at most one file, under its field name only. *)
Definition run_middleware (mw : Middleware) (req : Request)
  : option (option UploadedFile) :=
  match mw with
  | single m field =>
      match named_files (req_files req) with
      | [] => Some None
      | [p] =>
          if (part_fieldname p =? field)%string
          then Some (Some {| fieldname := part_fieldname p;
                             originalname := part_filename p;
                             stored := handleFile (storage m) p |})
          else None
      | _ => None
      end
  end.

(** Runs a route's middlewares in order; the last [req.file] stands. *)
Fixpoint run_middlewares (mws : list Middleware) (req : Request)
  (file : option UploadedFile) : option (option UploadedFile) :=
  match mws with
  | [] => Some file
  | mw :: rest =>
      match run_middleware mw req with
      | Some (Some f) => run_middlewares rest req (Some f)
      | Some None => run_middlewares rest req file
      | None => None
      end
  end.

(** *** Dispatch *)

(** What matching one route's path against a request path gives. *)
Inductive LayerMatch :=
| Hit (params : list (string * string))
| Miss
| DecodeFailed.

Definition match_layer (r : Route) (p : string) : LayerMatch :=
  match segments p with
  | Some pieces =>
      match match_path (parse (path r)) pieces with
      | Some raw =>
          match decode_params raw with
          | Some params => Hit params
          | None => DecodeFailed
          end
      | None => Miss
      end
  | None => Miss
  end.

(** A route handles its own method, and a GET route also handles HEAD. *)
Definition handles_method (r : Route) (m : Method) : bool :=
  Method_eqb (method r) m
  || (Method_eqb m HEAD && Method_eqb (method r) GET).

(** The methods a route reports for an OPTIONS request. *)
Definition route_options (r : Route) : list Method :=
  match method r with
  | GET => [GET; HEAD]
  | m => [m]
  end.

Definition append_methods (known new : list Method) : list Method :=
  fold_left
    (fun acc m => if existsb (Method_eqb m) acc then acc else (acc ++ [m])%list)
    new known.

(** A route takes a request when its path matches, the parameters decode,
    and it handles the method; it then gets the decoded parameters. *)
Definition route_match (req : Request) (r : Route)
  : option (list (string * string)) :=
  match match_layer r (req_path req) with
  | Hit params =>
      if handles_method r (req_method req) then Some params else None
  | _ => None
  end.

Inductive Dispatched :=
| Found (r : Route) (params : list (string * string))
| DecodeError                         (* answered with 400 *)
| Options (allow : list Method)       (* answered with an Allow header *)
| NoRoute.                            (* passed on *)

(** The router walks its stack in order.  A parameter that does not decode
    is an error that is held: no later route matches, and the request ends
    with that error.  For an OPTIONS request the methods of the routes
    whose path matches are collected. *)
Fixpoint next (stack : Router) (req : Request) (layerError : bool)
  (options : list Method) : Dispatched :=
  match stack with
  | [] =>
      if layerError then DecodeError
      else match options with
           | [] => NoRoute
           | _ => Options options
           end
  | r :: rest =>
      match match_layer r (req_path req) with
      | DecodeFailed => next rest req true options
      | Miss => next rest req layerError options
      | Hit params =>
          if layerError then next rest req layerError options
          else if handles_method r (req_method req) then Found r params
          else next rest req layerError
                 (if Method_eqb (req_method req) OPTIONS
                  then append_methods options (route_options r)
                  else options)
      end
  end.

Definition dispatch (router : Router) (req : Request) : Dispatched :=
  next router req false [].

Inductive Outcome :=
| Handled (h : ControllerMethod) (params : list (string * string))
    (file : option UploadedFile)
| UploadFailed
| BadRequest
| Allowed (methods : list Method)
| NotFound.

(** A request through the router: the matching route's middlewares run
    first, then its controller method gets the request. *)
Definition handle (router : Router) (req : Request) : Outcome :=
  match dispatch router req with
  | Found r params =>
      match run_middlewares (middlewares r) req None with
      | Some file => Handled (handler r) params file
      | None => UploadFailed
      end
  | DecodeError => BadRequest
  | Options allow => Allowed allow
  | NoRoute => NotFound
  end.

(** A URL segment holds no ["/"]. *)
Fixpoint no_slash (s : string) : bool :=
  match s with
  | EmptyString => true
  | String c rest => negb (Ascii.eqb c slash) && no_slash rest
  end.

End Billet.

(** ** Regular expressions, as the form fields' [pattern] rules use them *)

Module Regex.

Inductive re :=
| Void                          (* matches nothing *)
| Eps                           (* the empty string *)
| Class (p : ascii -> bool)     (* one character of a class *)
| Cat (a b : re)
| Alt (a b : re)
| Star (a : re).

(** [a+] and [a{2,}]. *)
Definition plus (a : re) : re := Cat a (Star a).
Definition at_least_two (a : re) : re := Cat a (Cat a (Star a)).

Fixpoint accepts_empty (r : re) : bool :=
  match r with
  | Void => false
  | Eps => true
  | Class _ => false
  | Cat a b => accepts_empty a && accepts_empty b
  | Alt a b => accepts_empty a || accepts_empty b
  | Star _ => true
  end.

(** What is left of [r] after reading [c]. *)
Fixpoint deriv (c : ascii) (r : re) : re :=
  match r with
  | Void => Void
  | Eps => Void
  | Class p => if p c then Eps else Void
  | Cat a b =>
      if accepts_empty a
      then Alt (Cat (deriv c a) b) (deriv c b)
      else Cat (deriv c a) b
  | Alt a b => Alt (deriv c a) (deriv c b)
  | Star a => Cat (deriv c a) (Star a)
  end.

(** [/^r$/.test(s)]: the whole string matches. *)
Fixpoint matches (r : re) (s : string) : bool :=
  match s with
  | EmptyString => accepts_empty r
  | String c rest => matches (deriv c r) rest
  end.

(** The strings of a regular expression. *)
Inductive Lang : re -> string -> Prop :=
| LEps : Lang Eps ""
| LClass p c : p c = true -> Lang (Class p) (String c "")
| LCat a b s t : Lang a s -> Lang b t -> Lang (Cat a b) (s ++ t)
| LAltL a b s : Lang a s -> Lang (Alt a b) s
| LAltR a b s : Lang b s -> Lang (Alt a b) s
| LStarNil a : Lang (Star a) ""
| LStarCons a s t : Lang a s -> Lang (Star a) t -> Lang (Star a) (s ++ t).

(** *** Character classes *)

Definition between (lo hi c : ascii) : bool :=
  (nat_of_ascii lo <=? nat_of_ascii c)%nat
  && (nat_of_ascii c <=? nat_of_ascii hi)%nat.

Fixpoint one_of (cs : string) (c : ascii) : bool :=
  match cs with
  | EmptyString => false
  | String x rest => Ascii.eqb x c || one_of rest c
  end.

(** [[A-Z]] under the [i] flag. *)
Definition letter (c : ascii) : bool :=
  between "A" "Z" c || between "a" "z" c.

(** [[0-9]]. *)
Definition digit (c : ascii) : bool := between "0" "9" c.

(** Every character of [s] is in the class [p]. *)
Fixpoint all_chars (p : ascii -> bool) (s : string) : bool :=
  match s with
  | EmptyString => true
  | String c rest => p c && all_chars p rest
  end.

(** How often [c] occurs in [s]. *)
Fixpoint count_char (c : ascii) (s : string) : nat :=
  match s with
  | EmptyString => 0
  | String x rest => (if Ascii.eqb x c then 1 else 0) + count_char c rest
  end.

End Regex.

(** ** The fields of the sign-in form (SignIn.tsx) *)

Module SignInFields.
Import Regex SignIn.

(** [[A-Z0-9._%+-]] and [[A-Z0-9.-]], case-insensitive. *)
Definition local_char (c : ascii) : bool :=
  letter c || digit c || one_of "._%+-" c.

Definition domain_char (c : ascii) : bool :=
  letter c || digit c || one_of ".-" c.

(** [EmailField]'s pattern:
    [/^[A-Z0-9._%+-]+@[A-Z0-9.-]+\.[A-Z]{2,}$/i]. *)
Definition email_pattern : re :=
  Cat (plus (Class local_char))
    (Cat (Class (Ascii.eqb "@"))
       (Cat (plus (Class domain_char))
          (Cat (Class (Ascii.eqb "."))
             (at_least_two (Class letter))))).

(** [formState.errors]: the message of each field that failed. *)
Record FieldErrors := {
  email_error : option string;
  password_error : option string
}.

(** The rules [EmailField] registers: [required], then [pattern]. *)
Definition validate_email (v : string) : option string :=
  if (v =? "")%string then Some "Email é obrigatório"
  else if matches email_pattern v then None
  else Some "Email inválido".

(** The rule [PasswordField] registers: [required]. *)
Definition validate_password (v : string) : option string :=
  if (v =? "")%string then Some "Senha é obrigatória" else None.

Definition validate (data : SignInData) : FieldErrors :=
  {| email_error := validate_email (email data);
     password_error := validate_password (password data) |}.

Definition no_errors : FieldErrors :=
  {| email_error := None; password_error := None |}.

(** [handleSubmit(handleSignIn)]: the handler runs only when every field
    passes its rules; otherwise the errors are reported and nothing else
    happens. *)
Definition handleSubmit (env : Env) (data : SignInData) (st : State)
  : FieldErrors * World :=
  match validate data with
  | {| email_error := None; password_error := None |} =>
      (no_errors, run env data st)
  | errs => (errs, (st, []))
  end.

(** [PasswordField]: [type={showPassword ? "password" : "text"}]. *)
Definition password_input_type (st : State) : string :=
  if showPassword st then "password" else "text".

(** [SubmitButton]: [disabled={isSubmitting}]. *)
Definition SubmitButton_disabled (st : State) : bool := isSubmitting st.

Definition is_SetIsSubmitting (e : Event) : bool :=
  match e with SetIsSubmitting _ => true | _ => false end.

(** The calls a submission makes to the outside: the CAPTCHA widget,
    [signIn] and the router. *)
Definition is_call (e : Event) : bool :=
  match e with
  | ExecuteAsync | RecaptchaReset | CallSignIn _ _ | RouterReplace _ => true
  | SetIsSubmitting _ | SetError _ => false
  end.

(** What an event of the log does to the component state. *)
Definition apply_event (st : State) (e : Event) : State :=
  match e with
  | SetIsSubmitting b =>
      {| showPassword := showPassword st; error := error st;
         isSubmitting := b |}
  | SetError msg =>
      {| showPassword := showPassword st; error := msg;
         isSubmitting := isSubmitting st |}
  | _ => st
  end.

(** The component state when the [n]-th event of a submission happens:
    the state the earlier events have built. *)
Definition state_before (n : nat) (env : Env) (data : SignInData)
  (st : State) : State :=
  fold_left apply_event (firstn n (snd (run env data st))) st.

End SignInFields.

(** ** The sign-in form with the popup it renders *)

Module SignInPopup.
Import SignIn.

(** Modelled from the spec: the [PopUpError] component
    (components/PopUps/Error), which both forms render and which is not
    among the sources.  The specification's section 7 says that errors are
    "rendered as transient popups (auto-dismiss after 5s)": a popup shown
    with a message holds a timer of 5000 ms and calls the [onClose] it was
    given when the timer is due. *)
Definition PopUpError_delay : Z := 5000.

(** Modelled from the spec: the timer of [PopUpError] after a render.
    [before] is the message and the time left of the popup the render
    before showed, if it showed one; a popup that goes on showing the same
    message keeps its running timer, a new message starts a new one. *)
Definition PopUpError_timer (before : option (string * Z)) (message : string)
  : Z :=
  match before with
  | Some (m, r) => if (m =? message)%string then r else PopUpError_delay
  | None => PopUpError_delay
  end.

(** The form and the popup it renders, with the popup's message and the
    time left on its timer. *)
Record View := {
  form : State;
  popup : option (string * Z)
}.

(** [{error && <PopUpError message={error} onClose={() => setError('')} />}]:
    the popup is rendered exactly while [error] is truthy. *)
Definition render (before : option (string * Z)) (st : State) : View :=
  {| form := st;
     popup := if popup_rendered st
              then Some (error st, PopUpError_timer before (error st))
              else None |}.

(** [ms] milliseconds pass: a popup whose timer is due calls [onClose],
    which resets the error, and is rendered no more. *)
Definition elapse (ms : Z) (v : View) : View :=
  match popup v with
  | Some (m, r) =>
      if r <=? ms then render None (onClose (form v))
      else {| form := form v; popup := Some (m, r - ms) |}
  | None => v
  end.

Inductive Action :=
| TogglePassword
| SubmitForm (env : Env) (data : SignInData)
| ClosePopup                       (* the user closes the popup *)
| Elapse (ms : Z).

Definition dispatch (a : Action) (v : View) : View :=
  match a with
  | TogglePassword => render (popup v) (togglePasswordVisibility (form v))
  | SubmitForm env data => render (popup v) (fst (run env data (form v)))
  | ClosePopup => render (popup v) (onClose (form v))
  | Elapse ms => elapse (Z.max 0 ms) v
  end.

Fixpoint run_actions (actions : list Action) (v : View) : View :=
  match actions with
  | [] => v
  | a :: rest => run_actions rest (dispatch a v)
  end.

(** The views the form can be in, from its first render on. *)
Definition reachable (v : View) : Prop :=
  exists actions, v = run_actions actions (render None initial).


End SignInPopup.

(** ** The logout button (logout/page.tsx) *)

Module Logout.

Inductive Event :=
| CallSignOut (redirect : bool)
| RouterReplace (href : string).

(** A statement of [logout]: from the events so far to a completion and
    the events after it. *)
Definition M (A : Type) : Type :=
  list Event -> SignIn.Completion A * list Event.

(** [m; k]: [k] runs only when [m] completes normally. *)
Definition seq {A B} (m : M A) (k : M B) : M B :=
  fun tr =>
    match m tr with
    | (SignIn.Normal _, tr') => k tr'
    | (SignIn.Return, tr') => (SignIn.Return, tr')
    | (SignIn.Throw, tr') => (SignIn.Throw, tr')
    end.

Definition log (e : Event) : M unit :=
  fun tr => (SignIn.Normal tt, (tr ++ [e])%list).

Definition settle {A} (s : SignIn.Settled A) : M A :=
  fun tr =>
    match s with
    | SignIn.Resolved a => (SignIn.Normal a, tr)
    | SignIn.Rejected => (SignIn.Throw, tr)
    end.

(** [await signOut({ redirect })]. *)
Definition signOut (result : SignIn.Settled unit) (redirect : bool)
  : M unit :=
  seq (log (CallSignOut redirect)) (settle result).

(** [router.replace(href)]. *)
Definition router_replace (href : string) : M unit :=
  log (RouterReplace href).

(** [logout]; there is no [try], so a rejection of [signOut] rejects the
    promise [logout] returns. *)
Definition logout (signOut_result : SignIn.Settled unit) : M unit :=
  seq (signOut signOut_result false) (router_replace "/").

End Logout.


(** * Properties *)

(** ** JavaScript values *)

Lemma truthy_string_nonempty s : Js.truthy_string s = true <-> s <> "".
Proof.
unfold Js.truthy_string. destruct (String.eqb_spec s ""); simpl; split;
  congruence.
Qed.

Lemma strict_eq_true a b : Js.strict_eq a b = true <-> a = b.
Proof.
destruct a, b; simpl; split; try congruence.
- intros H. apply String.eqb_eq in H. congruence.
- intros [= ->]. apply String.eqb_refl.
Qed.

(** ** The sign-in form *)

Section SignInFacts.
Import Js SignIn.

Lemma truthy_string_true (s : string) : s <> "" -> truthy_string s = true.
Proof. apply truthy_string_nonempty. Qed.

(** Every way the outside world can answer one submission. *)
Ltac case_env env :=
  destruct env as [[[[| |tok]|]|] [[]|] [[[[| |err]]|]|]];
  try (destruct (String.eqb_spec tok ""); [subst tok|]);
  try (destruct (String.eqb_spec err ""); [subst err|]).

(** Runs the handler on the case at hand. *)
Ltac compute_run :=
  unfold run, handleSignIn, try_catch_finally, token_obtained, succeeds,
    signIn_error in *;
  cbn in *;
  repeat match goal with
    | H : ?s <> "" |- _ => rewrite !(truthy_string_true s H) in *; cbn in *
    end.

(** The handler logs [SetIsSubmitting true] first, whatever happens next. *)
Lemma run_starts_submitting env data st :
  hd_error (snd (run env data st)) = Some (SetIsSubmitting true).
Proof. case_env env; compute_run; reflexivity. Qed.

(** [signIn] is called at most once, after [executeAsync] gave a non-empty
    token, and with that token. *)
Lemma signIn_only_after_token env data st p o :
  In (CallSignIn p o) (snd (run env data st)) ->
  exists tok before after,
    token_obtained env = Some tok /\ tok <> "" /\
    opt_recaptchaToken o = val tok /\
    snd (run env data st) = (before ++ CallSignIn p o :: after)%list /\
    In ExecuteAsync before /\ ~ In (CallSignIn p o) after.
Proof.
intros Hin.
case_env env; compute_run;
  repeat (destruct Hin as [Hin|Hin]; try discriminate Hin);
  try contradiction;
  injection Hin as <- <-;
  exists tok, [SetIsSubmitting true; ExecuteAsync; RecaptchaReset];
  eexists;
  (split; [reflexivity|]); (split; [assumption|]);
  (split; [reflexivity|]); (split; [reflexivity|]);
  (split; [simpl; tauto|]);
  simpl; intros H; repeat (destruct H as [H|H]; try discriminate H);
  contradiction.
Qed.

(** When the widget resolves without a token and [reset] returns, the
    message shown is the CAPTCHA one. *)
Lemma missing_token_message env data st :
  token_obtained env = None ->
  recaptcha_current env <> Some Rejected ->
  recaptcha_reset env = Resolved tt ->
  error (fst (run env data st)) = captcha_failed.
Proof.
intros Htok Hcur Hreset.
case_env env; compute_run; try discriminate; try congruence; reflexivity.
Qed.

(** C2. In the sign-in flow, whenever the CAPTCHA widget yields no token
    ([executeAsync] gives [null], [undefined] or an empty string, the ref is
    empty, or the call fails), [signIn] is never invoked and an error
    message is set instead. *)
Theorem C2_no_token_no_signIn env data st :
  token_obtained env = None ->
  (forall p o, ~ In (CallSignIn p o) (snd (run env data st))) /\
  (exists msg, In (SetError msg) (snd (run env data st)) /\
               error (fst (run env data st)) = msg /\ msg <> "").
Proof.
intros H. case_env env; compute_run; try discriminate.
all: split; [intros p o Hin; intuition discriminate|].
all: eexists; split; [|split; [reflexivity|discriminate]].
all: simpl; intuition.
Qed.

Lemma C2_witness :
  let env := {| recaptcha_current := Some (Resolved null);
                recaptcha_reset := Resolved tt;
                signIn_result := Resolved None |} in
  let data := {| email := "ana@lumi.com"; password := "secret" |} in
  token_obtained env = None /\
  (forall p o, ~ In (CallSignIn p o) (snd (run env data initial))) /\
  (exists msg, In (SetError msg) (snd (run env data initial)) /\
               error (fst (run env data initial)) = msg /\ msg <> "").
Proof.
split; [reflexivity|].
apply (C2_no_token_no_signIn
         {| recaptcha_current := Some (Resolved null);
            recaptcha_reset := Resolved tt;
            signIn_result := Resolved None |}
         {| email := "ana@lumi.com"; password := "secret" |} initial).
reflexivity.
Defined.

(** C4. Every run of the sign-in handler ends with [isSubmitting] reset to
    [false].  A run that succeeds sets no error and redirects once, to
    [/user/home]; any other run (no token, an error from [signIn], a thrown
    exception) sets exactly one non-empty error message and does not
    redirect. *)
Theorem C4_signIn_outcomes env data st :
  isSubmitting (fst (run env data st)) = false /\
  last (snd (run env data st)) (SetIsSubmitting true) = SetIsSubmitting false /\
  if succeeds env
  then filter is_SetError (snd (run env data st)) = [] /\
       filter is_RouterReplace (snd (run env data st))
       = [RouterReplace "/user/home"]
  else (exists msg,
          filter is_SetError (snd (run env data st)) = [SetError msg] /\
          error (fst (run env data st)) = msg /\ msg <> "") /\
       filter is_RouterReplace (snd (run env data st)) = [].
Proof.
case_env env; compute_run.
all: split; [reflexivity|].
all: split; [reflexivity|].
all: cbn; try (split; reflexivity).
all: split; [|reflexivity]; eexists;
  split; [reflexivity|split; [reflexivity|try discriminate; try assumption]].
Qed.

(** A successful run: the widget gives a token and [signIn] reports no
    error. *)
Example signIn_success_run :
  run {| recaptcha_current := Some (Resolved (val "03AGdBq"));
         recaptcha_reset := Resolved tt;
         signIn_result := Resolved (Some {| resp_error := undefined |}) |}
      {| email := "ana@lumi.com"; password := "secret" |} initial
  = ({| showPassword := true; error := ""; isSubmitting := false |},
     [SetIsSubmitting true; ExecuteAsync; RecaptchaReset;
      CallSignIn "user-login"
        {| opt_email := "ana@lumi.com"; opt_password := "secret";
           opt_recaptchaToken := val "03AGdBq"; opt_redirect := false |};
      RouterReplace "/user/home"; SetIsSubmitting false]).
Proof. reflexivity. Qed.

(** Wrong credentials: [signIn] resolves with an error. *)
Example signIn_rejected_run :
  run {| recaptcha_current := Some (Resolved (val "03AGdBq"));
         recaptcha_reset := Resolved tt;
         signIn_result :=
           Resolved (Some {| resp_error := val "CredentialsSignin" |}) |}
      {| email := "ana@lumi.com"; password := "wrong" |} initial
  = ({| showPassword := true; error := "CredentialsSignin";
        isSubmitting := false |},
     [SetIsSubmitting true; ExecuteAsync; RecaptchaReset;
      CallSignIn "user-login"
        {| opt_email := "ana@lumi.com"; opt_password := "wrong";
           opt_recaptchaToken := val "03AGdBq"; opt_redirect := false |};
      SetError "CredentialsSignin"; SetIsSubmitting false]).
Proof. reflexivity. Qed.

End SignInFacts.

(** ** The profile form *)

Section ProfileFacts.
Import Js Profile.

(** *** Choosing a picture *)

Lemma handleImageChange_over_limit file rest st :
  size file > 5000 * 1024 ->
  handleImageChange (Some (file :: rest)) st
  = (setError (Some size_error) st, None).
Proof.
intros H. unfold handleImageChange, first_file.
destruct (Z.gtb_spec (size file) (5000 * 1024)); [reflexivity | lia].
Qed.

Lemma handleImageChange_within_limit file rest st :
  size file <= 5000 * 1024 ->
  handleImageChange (Some (file :: rest)) st = (st, Some file).
Proof.
intros H. unfold handleImageChange, first_file.
destruct (Z.gtb_spec (size file) (5000 * 1024)); [lia | reflexivity].
Qed.

Lemma setError_preview v st : preview (setError v st) = preview st.
Proof. unfold setError. destruct (same v (error st)); reflexivity. Qed.

Lemma setError_selectedFile v st :
  selectedFile (setError v st) = selectedFile st.
Proof. unfold setError. destruct (same v (error st)); reflexivity. Qed.

Lemma setError_error v st : error (setError v st) = v.
Proof.
unfold setError, same. destruct (strict_eq v (error st)) eqn:E.
- apply strict_eq_true in E. congruence.
- reflexivity.
Qed.

(** A file over the code's limit of 5000 * 1024 bytes is refused: the
    error is set, nothing is read, preview and pending upload stay. *)
Lemma oversized_file_refused file result st :
  size file > 5000 * 1024 ->
  let st' := select_image file result st in
  error st' = Some size_error /\
  preview st' = preview st /\ selectedFile st' = selectedFile st.
Proof.
intros H. unfold select_image.
rewrite handleImageChange_over_limit by assumption. cbv zeta.
rewrite setError_error, setError_preview, setError_selectedFile. auto.
Qed.

(** C1. The handler's limit is 5000 * 1024 = 5,120,000 bytes, which is 5MB
    in neither reading.  A file of 5,200,000 bytes is below 5 MiB and is
    refused with the 5mb error; a file of 5,100,000 bytes is above
    5,000,000 bytes and is read, updating preview and pending upload. *)
Theorem C1_limit_is_not_5MB :
  let big := {| file_name := "big.png"; size := 5200000 |} in
  let mid := {| file_name := "mid.png"; size := 5100000 |} in
  let st := initial (Some "u1") in
  (size big <= five_MiB /\
   handleImageChange (Some [big]) st
   = (setError (Some "Image size should not exceed 5mb") st, None) /\
   preview (select_image big (Some "data:image/png;base64,AAAA") st)
   = Some placeholder) /\
  (size mid > five_MB /\
   handleImageChange (Some [mid]) st = (st, Some mid) /\
   error (select_image mid (Some "data:image/png;base64,AAAA") st) = None /\
   preview (select_image mid (Some "data:image/png;base64,AAAA") st)
   = Some "data:image/png;base64,AAAA" /\
   selectedFile (select_image mid (Some "data:image/png;base64,AAAA") st)
   = Some "data:image/png;base64,AAAA").
Proof.
cbv zeta. unfold five_MiB, five_MB. simpl size.
repeat split; try reflexivity; try lia; discriminate.
Qed.



(** The equality also holds when the read fails and [reader.result] is
    [null]. *)
Lemma onloadend_preview_selectedFile result st :
  preview (onloadend result st) = selectedFile (onloadend result st).
Proof. reflexivity. Qed.

(** C10. When the change event carries no file (the list is absent or
    empty), [handleImageChange] leaves the whole state as it was and starts
    no read. *)
Theorem C10_no_file_no_change files st :
  files = None \/ files = Some [] ->
  handleImageChange files st = (st, None) /\
  fst (dispatch (ImageChange files) st) = st.
Proof. intros [-> | ->]; split; reflexivity. Qed.

Lemma C10_witness :
  (Some (@nil File) = None \/ Some (@nil File) = Some []) /\
  (handleImageChange (Some []) (initial None) = (initial None, None) /\
   fst (dispatch (ImageChange (Some [])) (initial None)) = initial None).
Proof.
split; [right; reflexivity|].
apply (C10_no_file_no_change (Some []) (initial None)).
right; reflexivity.
Defined.

(** *** Submitting *)

Lemma isFormChanged_unchanged st i :
  initialData st = Some i ->
  watchedName st = Some (name i) ->
  watchedEmail st = Some (email i) ->
  selectedFile st = None ->
  isFormChanged st = false.
Proof.
intros Hi Hn He Hf. unfold isFormChanged.
rewrite Hi, Hn, He, Hf. simpl. now rewrite !String.eqb_refl.
Qed.

(** C3. In every state where name, email and picture are as fetched (the
    watched name and email equal the initial ones and no file is selected),
    or where no profile has been fetched, the submit button is disabled and
    activating it sends no update request. *)
Theorem C3_unchanged_form_cannot_submit st :
  data st = None \/ initialData st = None \/
  (exists i, initialData st = Some i /\
             watchedName st = Some (name i) /\
             watchedEmail st = Some (email i) /\
             selectedFile st = None) ->
  SubmitButton_disabled st = true /\ submit st = (st, []).
Proof.
intros H.
assert (Hd : isDisabled st = true).
{ unfold isDisabled. destruct H as [-> | [Hi | (i & Hi & Hn & He & Hf)]].
  - reflexivity.
  - unfold isFormChanged. rewrite Hi. apply orb_true_r.
  - rewrite (isFormChanged_unchanged st i) by assumption. apply orb_true_r. }
assert (Hb : SubmitButton_disabled st = true).
{ unfold SubmitButton_disabled. rewrite Hd. apply orb_true_r. }
split; [exact Hb|]. unfold submit. now rewrite Hb.
Qed.

Lemma C3_witness :
  let d := {| id := Some "u1"; name := "Ana"; email := "ana@lumi.com";
              profilePicture := undefined |} in
  let st := query_data d (initial (Some "u1")) in
  (data st = None \/ initialData st = None \/
   (exists i, initialData st = Some i /\
              watchedName st = Some (name i) /\
              watchedEmail st = Some (email i) /\
              selectedFile st = None)) /\
  (SubmitButton_disabled st = true /\ submit st = (st, [])).
Proof.
cbv zeta.
assert (H : let st := query_data
                {| id := Some "u1"; name := "Ana"; email := "ana@lumi.com";
                   profilePicture := undefined |} (initial (Some "u1")) in
            data st = None \/ initialData st = None \/
            (exists i, initialData st = Some i /\
                       watchedName st = Some (name i) /\
                       watchedEmail st = Some (email i) /\
                       selectedFile st = None)).
{ right; right. eexists. repeat split; reflexivity. }
split; [exact H|].
exact (C3_unchanged_form_cannot_submit _ H).
Defined.

(** Once a field differs from the fetched profile the button is enabled
    and a submission goes out. *)
Example changed_form_submits :
  let d := {| id := Some "u1"; name := "Ana"; email := "ana@lumi.com";
              profilePicture := undefined |} in
  let st := run [QueryData d; TypeName "Ana Maria"] (initial (Some "u1")) in
  SubmitButton_disabled st = false /\
  snd (submit st)
  = [updateUserProfile (Some "u1")
       {| body_name := "Ana Maria"; body_email := "ana@lumi.com";
          body_profilePicture := undefined |}].
Proof. split; reflexivity. Qed.

(** Whatever event reaches the component, each request it sends is an
    update whose body is [name], [email] and
    [profilePicture = selectedFile || undefined]. *)
Lemma requests_shape e st r :
  In r (snd (dispatch e st)) ->
  exists n m,
    r = updateUserProfile (session_user_id st)
          {| body_name := n; body_email := m;
             body_profilePicture := or_undefined (selectedFile st) |}.
Proof.
destruct e; simpl; try contradiction.
unfold submit, handleSubmit.
destruct (SubmitButton_disabled st); [contradiction|].
destruct (watchedName st) as [n|]; [|contradiction].
destruct (watchedEmail st) as [m|]; [|contradiction].
destruct (truthy_string n && truthy_string m); [|contradiction].
simpl. intros [<- | []]. now exists n, m.
Qed.

(** C8. Each submission sends exactly [name], [email] and
    [profilePicture].  After a picture was selected and read as the data
    URI [uri], [profilePicture] is the string [uri], whole; when no picture
    is selected ([selectedFile] is [null], or empty) it is [undefined], not
    [null] and not a part of an earlier picture. *)
Theorem C8_picture_replaced_wholesale st d :
  (forall file uri,
      size file <= 5000 * 1024 -> uri <> "" ->
      snd (onSubmit d (select_image file (Some uri) st))
      = [updateUserProfile (session_user_id st)
           {| body_name := form_name d; body_email := form_email d;
              body_profilePicture := val uri |}]) /\
  (selectedFile st = None \/ selectedFile st = Some "" ->
   snd (onSubmit d st)
   = [updateUserProfile (session_user_id st)
        {| body_name := form_name d; body_email := form_email d;
           body_profilePicture := undefined |}]).
Proof.
split.
- intros file uri Hsize Huri. unfold select_image.
  rewrite handleImageChange_within_limit by assumption.
  unfold onSubmit, mutate, mutationFn, onloadend. simpl.
  now rewrite (proj2 (truthy_string_nonempty uri) Huri).
- intros [Hf | Hf]; unfold onSubmit, mutate, mutationFn; simpl;
    now rewrite Hf.
Qed.

Lemma C8_witness :
  let st := initial (Some "u1") in
  let d := {| form_name := "Ana"; form_email := "ana@lumi.com" |} in
  let file := {| file_name := "me.png"; size := 2048 |} in
  (size file <= 5000 * 1024 /\ "data:image/png;base64,iVBOR" <> "" /\
   snd (onSubmit d (select_image file (Some "data:image/png;base64,iVBOR") st))
   = [updateUserProfile (Some "u1")
        {| body_name := "Ana"; body_email := "ana@lumi.com";
           body_profilePicture := val "data:image/png;base64,iVBOR" |}]) /\
  ((selectedFile st = None \/ selectedFile st = Some "") /\
   snd (onSubmit d st)
   = [updateUserProfile (Some "u1")
        {| body_name := "Ana"; body_email := "ana@lumi.com";
           body_profilePicture := undefined |}]).
Proof.
cbv zeta.
pose proof (C8_picture_replaced_wholesale (initial (Some "u1"))
              {| form_name := "Ana"; form_email := "ana@lumi.com" |})
  as [Hsel Hnone].
split.
- split; [simpl; lia|]. split; [discriminate|].
  apply (Hsel {| file_name := "me.png"; size := 2048 |}
              "data:image/png;base64,iVBOR"); [simpl; lia | discriminate].
- split; [left; reflexivity|]. apply Hnone. left; reflexivity.
Defined.

(** *** The popups' timers *)

Create HintDb timers.

Lemma effect_timer_ok m :
  truthy_string m = true -> timer_ok (Some m) (effect_timer (Some m)).
Proof.
intros H. unfold effect_timer, timer_ok, dismiss_delay. simpl.
rewrite H. split; [reflexivity | lia].
Qed.

Lemma setError_message_ok m st :
  truthy_string m = true -> timers_ok st -> timers_ok (setError (Some m) st).
Proof.
intros Hm [He Hs]. unfold setError.
destruct (same (Some m) (error st)); [now split|].
split; [apply (effect_timer_ok m Hm) | exact Hs].
Qed.

Lemma setSuccess_message_ok m st :
  truthy_string m = true -> timers_ok st -> timers_ok (setSuccess (Some m) st).
Proof.
intros Hm [He Hs]. unfold setSuccess.
destruct (same (Some m) (success st)); [now split|].
split; [exact He | apply (effect_timer_ok m Hm)].
Qed.

Lemma setError_null_ok st : timers_ok st -> timers_ok (setError None st).
Proof.
intros [He Hs]. unfold setError.
destruct (same None (error st)); [now split|].
split; [exact I | exact Hs].
Qed.

Lemma setSuccess_null_ok st : timers_ok st -> timers_ok (setSuccess None st).
Proof.
intros [He Hs]. unfold setSuccess.
destruct (same None (success st)); [now split|].
split; [exact He | exact I].
Qed.

Lemma elapse_error_ok ms st :
  0 <= ms -> timers_ok st -> timers_ok (elapse_error ms st).
Proof.
intros Hms [He Hs]. unfold elapse_error, timers_ok.
destruct (error_timer st) as [r|] eqn:Et; [|rewrite Et; now split].
destruct (Z.leb_spec r ms).
- unfold setError, same. simpl.
  destruct (error st) as [m|]; simpl; split; simpl; auto.
- split; simpl; [|exact Hs].
  destruct (error st) as [m|]; simpl in *; [|exact He].
  destruct He as [Hm Hr]. split; [exact Hm | lia].
Qed.

Lemma elapse_success_ok ms st :
  0 <= ms -> timers_ok st -> timers_ok (elapse_success ms st).
Proof.
intros Hms [He Hs]. unfold elapse_success, timers_ok.
destruct (success_timer st) as [r|] eqn:Et; [|rewrite Et; now split].
destruct (Z.leb_spec r ms).
- unfold setSuccess, same. simpl.
  destruct (success st) as [m|]; simpl; split; simpl; auto.
- split; simpl; [exact He|].
  destruct (success st) as [m|]; simpl in *; [|exact Hs].
  destruct Hs as [Hm Hr]. split; [exact Hm | lia].
Qed.

(** A delivery either changes nothing or runs the effect on the new
    profile. *)
Lemma query_data_cases d st :
  query_data d st = st \/
  query_data d st
  = setInitialData (Some d)
      (setPreview (Some (or_string (profilePicture d) placeholder))
         (with_watchedEmail (Some (email d))
            (with_watchedName (Some (name d)) (with_data (Some d) st)))).
Proof.
unfold query_data. destruct (truthy_opt (session_user_id st)); [|now left].
destruct (data st) as [old|]; [|now right].
destruct (ProfileData_eqb old d); [now left | now right].
Qed.

#[local] Hint Resolve setError_message_ok setSuccess_message_ok
  setError_null_ok setSuccess_null_ok elapse_error_ok elapse_success_ok
  : timers.




Lemma setSuccess_error v st : error (setSuccess v st) = error st.
Proof. unfold setSuccess. destruct (same v (success st)); reflexivity. Qed.

Lemma setError_success v st : success (setError v st) = success st.
Proof. unfold setError. destruct (same v (error st)); reflexivity. Qed.

Lemma elapse_error_field ms st :
  error (elapse ms st) = error (elapse_error ms st).
Proof.
unfold elapse, elapse_success.
destruct (success_timer (elapse_error ms st)) as [r|]; [|reflexivity].
destruct (r <=? ms); [|reflexivity].
now rewrite setSuccess_error.
Qed.

Lemma setSuccess_success v st : success (setSuccess v st) = v.
Proof.
unfold setSuccess, same. destruct (strict_eq v (success st)) eqn:E.
- apply strict_eq_true in E. congruence.
- reflexivity.
Qed.

Lemma elapse_success_success ms st :
  success (elapse_success ms st)
  = match success_timer st with
    | Some r => if r <=? ms then None else success st
    | None => success st
    end.
Proof.
unfold elapse_success.
destruct (success_timer st) as [r|]; [|reflexivity].
destruct (r <=? ms); [apply setSuccess_success | reflexivity].
Qed.

Lemma elapse_error_error ms st :
  error (elapse_error ms st)
  = match error_timer st with
    | Some r => if r <=? ms then None else error st
    | None => error st
    end.
Proof.
unfold elapse_error.
destruct (error_timer st) as [r|]; [|reflexivity].
destruct (r <=? ms); [apply setError_error | reflexivity].
Qed.

Lemma elapse_error_frame ms st :
  success (elapse_error ms st) = success st /\
  success_timer (elapse_error ms st) = success_timer st.
Proof.
unfold elapse_error. destruct (error_timer st) as [r|]; [|now split].
destruct (r <=? ms); [|now split].
unfold setError. destruct (same None _); now split.
Qed.

Lemma elapse_success_field ms st :
  success (elapse ms st) = success (elapse_success ms st).
Proof.
unfold elapse. rewrite !elapse_success_success.
destruct (elapse_error_frame ms st) as [-> ->]. reflexivity.
Qed.



End ProfileFacts.

(** ** Dismissal of the popups in both forms *)

Section PopupFacts.











End PopupFacts.

(** ** The billet router *)

Section BilletFacts.
Import Billet.

Lemma split_no_slash s : forall cur,
  no_slash s = true -> split s cur = [(cur ++ s)%string].
Proof.
induction s as [|c s IH]; intros cur H; simpl in *.
- f_equal. induction cur; simpl; congruence.
- apply andb_true_iff in H as [Hc Hs].
  apply negb_true_iff in Hc. rewrite Hc, IH by assumption.
  f_equal. clear. induction cur; simpl; congruence.
Qed.

(** The pieces of [/billet/download/<fileName>] and [/billet/<id>]. *)
Lemma segments_download fileName :
  no_slash fileName = true -> fileName <> "" ->
  segments ("/billet/download/" ++ fileName)
  = Some ["billet"; "download"; fileName].
Proof.
intros Hs Hne. unfold segments. cbn.
rewrite split_no_slash by assumption. cbn.
destruct (String.eqb_spec fileName ""); [contradiction | reflexivity].
Qed.

Lemma segments_billet_id id :
  no_slash id = true -> id <> "" ->
  segments ("/billet/" ++ id) = Some ["billet"; id].
Proof.
intros Hs Hne. unfold segments. cbn.
rewrite split_no_slash by assumption. cbn.
destruct (String.eqb_spec id ""); [contradiction | reflexivity].
Qed.

(** A route the router finds is one of its stack, and takes the request. *)
Lemma next_found stack : forall req held options r params,
  next stack req held options = Found r params ->
  In r stack /\ route_match req r = Some params.
Proof.
induction stack as [|r0 stack IH]; intros req held options r params H;
  simpl in H.
- destruct held; [discriminate|]. destruct options; discriminate.
- destruct (match_layer r0 (req_path req)) as [ps| |] eqn:E.
  + destruct held.
    * apply IH in H as [Hin Hm]. split; [now right | exact Hm].
    * destruct (handles_method r0 (req_method req)) eqn:Hh.
      -- injection H as <- <-. split; [now left|].
         unfold route_match. now rewrite E, Hh.
      -- apply IH in H as [Hin Hm]. split; [now right | exact Hm].
  + apply IH in H as [Hin Hm]. split; [now right | exact Hm].
  + apply IH in H as [Hin Hm]. split; [now right | exact Hm].
Qed.

Lemma dispatch_in router req r params :
  dispatch router req = Found r params -> In r router.
Proof. intros H. now apply next_found in H. Qed.

Lemma route_match_handles req r params :
  route_match req r = Some params ->
  handles_method r (req_method req) = true.
Proof.
unfold route_match. destruct (match_layer r (req_path req)); try discriminate.
now destruct (handles_method r (req_method req)).
Qed.

(** A route is reached by a request of its own method, or, a GET route, by
    a HEAD request. *)
Lemma dispatch_method router req r params :
  dispatch router req = Found r params ->
  method r = req_method req \/ (req_method req = HEAD /\ method r = GET).
Proof.
intros H. apply next_found in H as [_ H].
apply route_match_handles in H. unfold handles_method in H.
destruct (method r), (req_method req); simpl in H;
  try discriminate; auto.
Qed.

(** C5, as the claim states it, fails on the verbs: a HEAD request to
    [/billet] reaches the GET route and its controller method. *)
Lemma C5_head_reaches_get_route :
  ~ (forall req r params,
        dispatch billetRouter req = Found r params ->
        method r = req_method req).
Proof.
intros H.
specialize (H {| req_method := HEAD; req_path := "/billet";
                 req_files := [] |}
              {| method := GET; path := "/billet"; middlewares := [];
                 handler := getAllBilletsByUserId |} [] eq_refl).
discriminate H.
Qed.

(** C5, amended.  The billet router has exactly four routes, in this
    order: GET /billet to [getAllBilletsByUserId], POST /billet to
    [uploadBillet], GET /billet/download/:fileName to [getDownloadUrl] and
    DELETE /billet/:id to [deleteBillet].  A request with a declared verb
    and path reaches the corresponding controller method, with the decoded
    parameter.  A route is reached only by a request of its declared verb,
    except that the two GET routes are also reached by HEAD requests. *)
Theorem C5_billet_routes :
  map (fun r => (method r, path r, handler r)) billetRouter
  = [(GET, "/billet", getAllBilletsByUserId);
     (POST, "/billet", uploadBillet);
     (GET, "/billet/download/:fileName", getDownloadUrl);
     (DELETE, "/billet/:id", deleteBillet)] /\
  (forall files,
      dispatch billetRouter
        {| req_method := GET; req_path := "/billet"; req_files := files |}
      = Found {| method := GET; path := "/billet"; middlewares := [];
                 handler := getAllBilletsByUserId |} []) /\
  (forall files,
      dispatch billetRouter
        {| req_method := POST; req_path := "/billet"; req_files := files |}
      = Found {| method := POST; path := "/billet";
                 middlewares := [single upload "file"];
                 handler := uploadBillet |} []) /\
  (forall segment fileName files,
      no_slash segment = true -> segment <> "" ->
      decodeURIComponent segment = Some fileName ->
      dispatch billetRouter
        {| req_method := GET;
           req_path := "/billet/download/" ++ segment;
           req_files := files |}
      = Found {| method := GET; path := "/billet/download/:fileName";
                 middlewares := []; handler := getDownloadUrl |}
          [("fileName", fileName)]) /\
  (forall segment id files,
      no_slash segment = true -> segment <> "" ->
      decodeURIComponent segment = Some id ->
      dispatch billetRouter
        {| req_method := DELETE;
           req_path := "/billet/" ++ segment;
           req_files := files |}
      = Found {| method := DELETE; path := "/billet/:id";
                 middlewares := []; handler := deleteBillet |}
          [("id", id)]) /\
  (forall req r params,
      dispatch billetRouter req = Found r params ->
      method r = req_method req \/
      (req_method req = HEAD /\ method r = GET)) /\
  (forall files,
      dispatch billetRouter
        {| req_method := HEAD; req_path := "/billet"; req_files := files |}
      = Found {| method := GET; path := "/billet"; middlewares := [];
                 handler := getAllBilletsByUserId |} []).
Proof.
split; [reflexivity|].
split; [reflexivity|].
split; [reflexivity|].
split.
{ intros seg f files Hs Hne Hd.
  cbv beta iota delta [dispatch billetRouter Router_new get post delete add
                         app next match_layer path req_method req_path].
  rewrite segments_download by assumption.
  change (parse "/billet") with [Lit "billet"].
  change (parse "/billet/download/:fileName")
    with [Lit "billet"; Lit "download"; Param "fileName"].
  cbn [match_path]. change (lower "billet" =? lower "billet")%string with true.
  change (lower "download" =? lower "download")%string with true.
  cbv iota. destruct (String.eqb_spec seg ""); [contradiction|].
  cbn [option_map decode_params]. rewrite Hd. reflexivity. }
split.
{ intros seg i files Hs Hne Hd.
  cbv beta iota delta [dispatch billetRouter Router_new get post delete add
                         app next match_layer path req_method req_path].
  rewrite segments_billet_id by assumption.
  change (parse "/billet") with [Lit "billet"].
  change (parse "/billet/download/:fileName")
    with [Lit "billet"; Lit "download"; Param "fileName"].
  change (parse "/billet/:id") with [Lit "billet"; Param "id"].
  cbn [match_path]. change (lower "billet" =? lower "billet")%string with true.
  cbv iota. destruct (String.eqb_spec seg ""); [contradiction|].
  destruct (lower "download" =? lower seg)%string;
    cbn [option_map decode_params]; rewrite Hd; reflexivity. }
split; [apply dispatch_method | reflexivity].
Qed.

Lemma C5_witness :
  (no_slash "fatura%2001.pdf" = true /\ "fatura%2001.pdf" <> "" /\
   decodeURIComponent "fatura%2001.pdf" = Some "fatura 01.pdf") /\
  dispatch billetRouter
    {| req_method := GET;
       req_path := "/billet/download/" ++ "fatura%2001.pdf";
       req_files := [] |}
  = Found {| method := GET; path := "/billet/download/:fileName";
             middlewares := []; handler := getDownloadUrl |}
      [("fileName", "fatura 01.pdf")].
Proof.
split; [split; [reflexivity | split; [discriminate | reflexivity]]|].
destruct C5_billet_routes as (_ & _ & _ & Hdown & _).
apply Hdown; [reflexivity | discriminate | reflexivity].
Defined.

(** Requests that fit no declared verb and path pair find no route; an
    empty piece in the path matches nothing, and a parameter that does not
    decode is a bad request. *)
Example undeclared_requests_not_found :
  map (fun mp => handle billetRouter
                   {| req_method := fst mp; req_path := snd mp;
                      req_files := [] |})
      [(PUT, "/billet"); (DELETE, "/billet"); (POST, "/billet/7");
       (GET, "/billet/7"); (POST, "/billet/download/a.pdf");
       (GET, "/billet/download"); (DELETE, "/billet//7"); (GET, "//billet");
       (DELETE, "/billet/%zz"); (OPTIONS, "/billet")]
  = [NotFound; NotFound; NotFound; NotFound; NotFound; NotFound; NotFound;
     NotFound; BadRequest; Allowed [GET; HEAD; POST]].
Proof. reflexivity. Qed.

Lemma billetRouter_routes r :
  In r billetRouter ->
  r = {| method := GET; path := "/billet"; middlewares := [];
         handler := getAllBilletsByUserId |} \/
  r = {| method := POST; path := "/billet";
         middlewares := [single upload "file"]; handler := uploadBillet |} \/
  r = {| method := GET; path := "/billet/download/:fileName";
         middlewares := []; handler := getDownloadUrl |} \/
  r = {| method := DELETE; path := "/billet/:id"; middlewares := [];
         handler := deleteBillet |}.
Proof. intros [<- | [<- | [<- | [<- | []]]]]; auto. Qed.

Lemma named_files_in p parts : In p (named_files parts) -> In p parts.
Proof. unfold named_files. intros H. now apply filter_In in H. Qed.

(** Only files stored in memory ever reach a controller method, and only
    [uploadBillet] gets one. *)
Lemma handled_file_in_memory req h params file :
  handle billetRouter req = Handled h params (Some file) ->
  h = uploadBillet /\ fieldname file = "file" /\
  exists p, In p (req_files req) /\
            stored file = in_memory (concat (part_chunks p)).
Proof.
unfold handle. destruct (dispatch billetRouter req) as [r ps| | |] eqn:E;
  try discriminate.
apply dispatch_in, billetRouter_routes in E.
destruct E as [-> | [-> | [-> | ->]]]; simpl;
  try (intros [= _ _ ?]; discriminate).
destruct (named_files (req_files req)) as [|p [|q rest]] eqn:N;
  try discriminate.
destruct (String.eqb_spec (part_fieldname p) "file") as [Hf|]; try discriminate.
intros [= <- _ <-]. simpl.
split; [reflexivity|]. split; [exact Hf|].
exists p. split; [|reflexivity].
apply named_files_in. rewrite N. now left.
Qed.

Lemma dispatch_post_billet files :
  dispatch billetRouter
    {| req_method := POST; req_path := "/billet"; req_files := files |}
  = Found {| method := POST; path := "/billet";
             middlewares := [single upload "file"];
             handler := uploadBillet |} [].
Proof. reflexivity. Qed.

(** C6. The upload middleware sits on exactly one of the four routes,
    POST /billet, as [upload.single('file')]; [upload] uses memory storage.
    A single file under the field [file] reaches [uploadBillet] with all
    its chunks in one in-memory buffer; a file under another field name, or
    a second file, fails the request; a part without a file name is not
    taken as a file.  Whatever the request, a file a controller method gets
    is such an in-memory buffer. *)
Theorem C6_upload_middleware :
  map (fun r => (method r, path r, middlewares r)) billetRouter
  = [(GET, "/billet", []);
     (POST, "/billet", [single upload "file"]);
     (GET, "/billet/download/:fileName", []);
     (DELETE, "/billet/:id", [])] /\
  storage upload = memoryStorage /\
  (forall files p,
      named_files files = [p] -> part_fieldname p = "file" ->
      handle billetRouter
        {| req_method := POST; req_path := "/billet"; req_files := files |}
      = Handled uploadBillet []
          (Some {| fieldname := "file";
                   originalname := part_filename p;
                   stored := in_memory (concat (part_chunks p)) |})) /\
  (forall files p,
      named_files files = [p] -> part_fieldname p <> "file" ->
      handle billetRouter
        {| req_method := POST; req_path := "/billet"; req_files := files |}
      = UploadFailed) /\
  (forall files p q rest,
      named_files files = p :: q :: rest ->
      handle billetRouter
        {| req_method := POST; req_path := "/billet"; req_files := files |}
      = UploadFailed) /\
  (forall files,
      named_files files = [] ->
      handle billetRouter
        {| req_method := POST; req_path := "/billet"; req_files := files |}
      = Handled uploadBillet [] None) /\
  (forall req h params file,
      handle billetRouter req = Handled h params (Some file) ->
      h = uploadBillet /\ fieldname file = "file" /\
      exists p, In p (req_files req) /\
                stored file = in_memory (concat (part_chunks p))).
Proof.
split; [reflexivity|]. split; [reflexivity|].
split; [|split; [|split; [|split]]].
- intros files p N Hf. unfold handle. rewrite dispatch_post_billet.
  cbv [middlewares handler run_middlewares run_middleware req_files].
  rewrite N, Hf. reflexivity.
- intros files p N Hf. unfold handle. rewrite dispatch_post_billet.
  cbv [middlewares handler run_middlewares run_middleware req_files].
  rewrite N.
  destruct (String.eqb_spec (part_fieldname p) "file");
    [contradiction | reflexivity].
- intros files p q rest N. unfold handle. rewrite dispatch_post_billet.
  cbv [middlewares handler run_middlewares run_middleware req_files].
  now rewrite N.
- intros files N. unfold handle. rewrite dispatch_post_billet.
  cbv [middlewares handler run_middlewares run_middleware req_files].
  now rewrite N.
- exact handled_file_in_memory.
Qed.

Lemma C6_witness :
  let p := {| part_fieldname := "file"; part_filename := "fatura.pdf";
              part_chunks := [["%"; "P"]; ["D"; "F"]]%byte |} in
  let empty := {| part_fieldname := "file"; part_filename := "";
                  part_chunks := [] |} in
  (named_files [empty; p] = [p] /\ part_fieldname p = "file") /\
  handle billetRouter
    {| req_method := POST; req_path := "/billet"; req_files := [empty; p] |}
  = Handled uploadBillet []
      (Some {| fieldname := "file"; originalname := "fatura.pdf";
               stored := in_memory ["%"; "P"; "D"; "F"]%byte |}).
Proof.
cbv zeta. split; [split; reflexivity|].
destruct C6_upload_middleware as (_ & _ & Hone & _).
apply (Hone [{| part_fieldname := "file"; part_filename := "";
                part_chunks := [] |};
             {| part_fieldname := "file"; part_filename := "fatura.pdf";
                part_chunks := [["%"; "P"]; ["D"; "F"]]%byte |}]
            {| part_fieldname := "file"; part_filename := "fatura.pdf";
               part_chunks := [["%"; "P"]; ["D"; "F"]]%byte |});
  reflexivity.
Defined.

End BilletFacts.

(** ** Regular expressions *)

Section RegexFacts.
Import Regex.

Lemma append_empty s t : (s ++ t)%string = "" -> s = "" /\ t = "".
Proof. destruct s; simpl; [auto | discriminate]. Qed.

Lemma append_nil_r s : (s ++ "")%string = s.
Proof. induction s; simpl; congruence. Qed.

Lemma append_assoc s t u : ((s ++ t) ++ u)%string = (s ++ t ++ u)%string.
Proof. induction s; simpl; congruence. Qed.

Lemma accepts_empty_Lang r : accepts_empty r = true <-> Lang r "".
Proof.
split.
- induction r; simpl; intros H; try discriminate.
  + constructor.
  + apply andb_true_iff in H as [Ha Hb].
    change "" with ("" ++ "")%string. constructor; auto.
  + apply orb_true_iff in H as [Ha | Hb]; [apply LAltL | apply LAltR]; auto.
  + constructor.
- intros H. remember "" as w eqn:Ew.
  induction H; simpl; try reflexivity; try discriminate.
  + apply append_empty in Ew as [-> ->]. rewrite IHLang1, IHLang2; auto.
  + rewrite IHLang; auto.
  + rewrite IHLang; auto using orb_true_r.
Qed.

Lemma deriv_sound c r : forall s, Lang (deriv c r) s -> Lang r (String c s).
Proof.
induction r; simpl; intros s H.
- inversion H.
- inversion H.
- destruct (p c) eqn:Ep; inversion H; subst. now constructor.
- destruct (accepts_empty r1) eqn:Ea.
  + inversion H as [| | | a b s0 H1 | a b s0 H1 | |]; subst.
    * inversion H1 as [| |a b s1 s2 Hs1 Hs2 | | | |]; subst.
      change (String c (s1 ++ s2)) with (String c s1 ++ s2)%string.
      constructor; auto.
    * change (String c s) with ("" ++ String c s)%string.
      constructor; [now apply accepts_empty_Lang | auto].
  + inversion H as [| |a b s1 s2 Hs1 Hs2 | | | |]; subst.
    change (String c (s1 ++ s2)) with (String c s1 ++ s2)%string.
    constructor; auto.
- inversion H; subst; [apply LAltL | apply LAltR]; auto.
- inversion H as [| |a b s1 s2 Hs1 Hs2 | | | |]; subst.
  change (String c (s1 ++ s2)) with (String c s1 ++ s2)%string.
  constructor; auto.
Qed.

Lemma deriv_complete c r w :
  Lang r w -> forall s, w = String c s -> Lang (deriv c r) s.
Proof.
induction 1 as [|p x Hp|a b s1 t Ha IHa Hb IHb|a b s1 Ha IHa|a b s1 Hb IHb
               | |a s1 t Ha IHa Hs IHs]; intros s E; simpl.
- discriminate.
- injection E as -> <-. rewrite Hp. constructor.
- destruct s1 as [|x s1']; simpl in E.
  + subst t. apply accepts_empty_Lang in Ha. rewrite Ha.
    apply LAltR. auto.
  + injection E as -> <-.
    destruct (accepts_empty a); [apply LAltL|]; constructor; auto.
- apply LAltL; auto.
- apply LAltR; auto.
- discriminate.
- destruct s1 as [|x s1']; simpl in E.
  + auto.
  + injection E as -> <-. constructor; auto.
Qed.

(** The matcher decides the language of the expression. *)
Lemma matches_Lang s : forall r, matches r s = true <-> Lang r s.
Proof.
induction s as [|c s IH]; intros r; simpl.
- apply accepts_empty_Lang.
- rewrite IH. split; [apply deriv_sound|].
  intros H. now apply (deriv_complete c r _ H).
Qed.

Lemma Lang_Class p s :
  Lang (Class p) s <-> exists c, s = String c "" /\ p c = true.
Proof.
split.
- intros H. inversion H; subst. eauto.
- intros (c & -> & Hc). now constructor.
Qed.

Lemma Lang_star_class p s :
  Lang (Star (Class p)) s <-> all_chars p s = true.
Proof.
split.
- intros H. remember (Star (Class p)) as r eqn:Er.
  induction H; try discriminate; [reflexivity|].
  injection Er as ->. inversion H as [|q c Hc| | | | |]; subst. simpl.
  rewrite IHLang2 by reflexivity. now rewrite Hc.
- induction s as [|c s IH]; simpl; intros H; [constructor|].
  apply andb_true_iff in H as [Hc Hs].
  change (String c s) with (String c "" ++ s)%string.
  constructor; [now constructor | auto].
Qed.

Lemma Lang_plus_class p s :
  Lang (plus (Class p)) s <-> s <> "" /\ all_chars p s = true.
Proof.
unfold plus. split.
- intros H. inversion H as [| |a b s1 s2 Hs1 Hs2 | | | |]; subst.
  inversion Hs1 as [|q c Hc| | | | |]; subst.
  apply Lang_star_class in Hs2. simpl.
  split; [discriminate | now rewrite Hc, Hs2].
- intros [Hne H]. destruct s as [|c s]; [contradiction|]. simpl in H.
  apply andb_true_iff in H as [Hc Hs].
  change (String c s) with (String c "" ++ s)%string.
  constructor; [now constructor | now apply Lang_star_class].
Qed.

Lemma Lang_at_least_two_class p s :
  Lang (at_least_two (Class p)) s
  <-> (2 <= String.length s)%nat /\ all_chars p s = true.
Proof.
unfold at_least_two. split.
- intros H. inversion H as [| |a b s1 s2 Hs1 Hs2 | | | |]; subst.
  inversion Hs1 as [|q c Hc| | | | |]; subst.
  apply (Lang_plus_class p) in Hs2 as [Hne Hall].
  destruct s2; [contradiction|]. simpl.
  split; [lia | now rewrite Hc].
- intros [Hlen H]. destruct s as [|c s]; [simpl in Hlen; lia|].
  simpl in H. apply andb_true_iff in H as [Hc Hs].
  change (String c s) with (String c "" ++ s)%string.
  constructor; [now constructor|]. apply (Lang_plus_class p).
  split; [|exact Hs]. destruct s; [simpl in Hlen; lia | discriminate].
Qed.

End RegexFacts.

(** ** The fields of the sign-in form *)

Section SignInFieldFacts.
Import Js Regex SignIn SignInFields.

Lemma length_append s t :
  String.length (s ++ t) = (String.length s + String.length t)%nat.
Proof. induction s; simpl; congruence. Qed.

Lemma count_char_append c s t :
  count_char c (s ++ t) = (count_char c s + count_char c t)%nat.
Proof. induction s; simpl; [reflexivity | rewrite IHs; lia]. Qed.

Lemma count_char_outside p c s :
  p c = false -> all_chars p s = true -> count_char c s = 0%nat.
Proof.
intros Hc. induction s as [|x s IH]; simpl; [reflexivity|].
intros H. apply andb_true_iff in H as [Hx Hs].
destruct (Ascii.eqb_spec x c); [congruence | auto].
Qed.

Lemma nonempty_length s : s <> "" -> (1 <= String.length s)%nat.
Proof. destruct s; [contradiction | simpl; lia]. Qed.

Lemma email_pattern_shape v :
  matches email_pattern v = true <->
  exists l d t,
    v = l ++ "@" ++ d ++ "." ++ t /\
    l <> "" /\ all_chars local_char l = true /\
    d <> "" /\ all_chars domain_char d = true /\
    (2 <= String.length t)%nat /\ all_chars letter t = true.
Proof.
rewrite matches_Lang. unfold email_pattern. split.
- intros H.
  inversion H as [| |a1 b1 l r1 Hl H1 | | | |]; subst.
  inversion H1 as [| |a2 b2 at_ r2 Hat H2 | | | |]; subst.
  inversion H2 as [| |a3 b3 d r3 Hd H3 | | | |]; subst.
  inversion H3 as [| |a4 b4 dot t Hdot Ht | | | |]; subst.
  apply Lang_Class in Hat as (c1 & -> & Hc1).
  apply Lang_Class in Hdot as (c2 & -> & Hc2).
  apply Ascii.eqb_eq in Hc1, Hc2. subst c1 c2.
  apply Lang_plus_class in Hl as [Hl1 Hl2].
  apply Lang_plus_class in Hd as [Hd1 Hd2].
  apply Lang_at_least_two_class in Ht as [Ht1 Ht2].
  exists l, d, t. auto 10.
- intros (l & d & t & -> & Hl1 & Hl2 & Hd1 & Hd2 & Ht1 & Ht2).
  constructor; [now apply Lang_plus_class|].
  change ("@" ++ d ++ "." ++ t) with (String "@" "" ++ d ++ "." ++ t).
  constructor; [constructor; reflexivity|].
  constructor; [now apply Lang_plus_class|].
  change ("." ++ t) with (String "." "" ++ t).
  constructor; [constructor; reflexivity|].
  now apply Lang_at_least_two_class.
Qed.

(** X1. An address that passes [EmailField]'s rules has exactly one ["@"], no
    blank, and at least six characters. *)
Theorem valid_email_one_at v :
  validate_email v = None ->
  count_char "@" v = 1%nat /\ count_char " " v = 0%nat /\
  (6 <= String.length v)%nat.
Proof.
unfold validate_email. destruct (v =? "")%string; [discriminate|].
destruct (matches email_pattern v) eqn:E; [intros _ | discriminate].
apply email_pattern_shape in E
  as (l & d & t & -> & Hl1 & Hl2 & Hd1 & Hd2 & Ht1 & Ht2).
repeat split.
- rewrite !count_char_append.
  rewrite (count_char_outside local_char "@" l) by (reflexivity || assumption).
  rewrite (count_char_outside domain_char "@" d) by (reflexivity || assumption).
  rewrite (count_char_outside letter "@" t) by (reflexivity || assumption).
  reflexivity.
- rewrite !count_char_append.
  rewrite (count_char_outside local_char " " l) by (reflexivity || assumption).
  rewrite (count_char_outside domain_char " " d) by (reflexivity || assumption).
  rewrite (count_char_outside letter " " t) by (reflexivity || assumption).
  reflexivity.
- rewrite !length_append. simpl.
  apply nonempty_length in Hl1, Hd1. lia.
Qed.

Lemma valid_email_one_at_witness :
  validate_email "ana@lumi.com" = None /\
  (count_char "@" "ana@lumi.com" = 1%nat /\
   count_char " " "ana@lumi.com" = 0%nat /\
   (6 <= String.length "ana@lumi.com")%nat).
Proof.
split; [reflexivity|].
apply (valid_email_one_at "ana@lumi.com"). reflexivity.
Defined.

(** X2. The email pattern accepts exactly the strings [local@domain.tld] with
    a non-empty local part over [A-Za-z0-9._%+-], a non-empty domain over
    [A-Za-z0-9.-] and a final label of at least two letters. *)
Theorem email_pattern_accepts_exactly v :
  matches email_pattern v = true <->
  exists l d t,
    v = l ++ "@" ++ d ++ "." ++ t /\
    l <> "" /\ all_chars local_char l = true /\
    d <> "" /\ all_chars domain_char d = true /\
    (2 <= String.length t)%nat /\ all_chars letter t = true.
Proof. exact (email_pattern_shape v). Qed.

(** What the pattern lets through and what it stops. *)
Example email_pattern_samples :
  map (matches email_pattern)
    ["ana@lumi.com"; "ANA.Maria+fat@Mail-1.example.BR"; "a@b.cd";
     ""; "ana"; "ana@lumi"; "ana@lumi.c"; "@lumi.com"; "ana@.com";
     "ana maria@lumi.com"; "ana@lumi.com "; "ana@lu@mi.com"; "ana@lumi.c0m"]
  = [true; true; true;
     false; false; false; false; false; false;
     false; false; false; false].
Proof. reflexivity. Qed.

Ltac case_env env :=
  destruct env as [[[[| |tok]|]|] [[]|] [[[[| |err]]|]|]];
  try (destruct (String.eqb_spec tok ""); [subst tok|]);
  try (destruct (String.eqb_spec err ""); [subst err|]).

Ltac compute_run :=
  unfold run, handleSignIn, try_catch_finally, token_obtained, succeeds,
    signIn_error in *;
  cbn in *;
  repeat match goal with
    | H : ?s <> "" |- _ => rewrite !(truthy_string_true s H) in *; cbn in *
    end.

(** The arguments of every [signIn] call of a submission. *)
Lemma signIn_call_args env data st p o :
  In (CallSignIn p o) (snd (run env data st)) ->
  p = "user-login" /\
  opt_email o = email data /\ opt_password o = password data /\
  opt_redirect o = false.
Proof.
intros Hin.
case_env env; compute_run;
  repeat (destruct Hin as [Hin|Hin]; try discriminate Hin);
  try contradiction;
  injection Hin as <- <-; auto.
Qed.

Lemma validate_no_errors data :
  validate data = no_errors <->
  validate_email (email data) = None /\
  validate_password (password data) = None.
Proof.
unfold validate, no_errors. split.
- intros [= -> ->]. auto.
- intros [-> ->]. reflexivity.
Qed.

Lemma handleSubmit_invalid env data st :
  validate data <> no_errors ->
  handleSubmit env data st = (validate data, (st, [])).
Proof.
intros H. unfold handleSubmit.
destruct (validate data) as [[e|] [q|]]; try reflexivity.
now contradiction H.
Qed.

Lemma handleSubmit_valid env data st :
  validate data = no_errors ->
  handleSubmit env data st = (no_errors, run env data st).
Proof. intros H. unfold handleSubmit. now rewrite H. Qed.

(** X3. When a field of the sign-in form fails its rules, submitting does
    nothing but report the errors: no state cell changes and neither the
    CAPTCHA widget nor [signIn] is called.  Hence [signIn] only ever gets an
    email that matches the pattern and a non-empty password. *)
Theorem invalid_form_never_signs_in env data st :
  (validate data <> no_errors ->
   snd (handleSubmit env data st) = (st, [])) /\
  (forall p o,
      In (CallSignIn p o) (snd (snd (handleSubmit env data st))) ->
      matches email_pattern (opt_email o) = true /\ opt_password o <> "").
Proof.
split.
- intros H. now rewrite handleSubmit_invalid.
- intros p o Hin.
  destruct (validate data) as [[e|] [q|]] eqn:E;
    try (rewrite handleSubmit_invalid in Hin
           by (rewrite E; discriminate); simpl in Hin; contradiction).
  rewrite handleSubmit_valid in Hin by exact E. simpl in Hin.
  apply signIn_call_args in Hin as (_ & -> & -> & _).
  apply (validate_no_errors data) in E as [He Hp].
  unfold validate_email in He. unfold validate_password in Hp.
  destruct (String.eqb_spec (password data) ""); [discriminate|].
  destruct (email data =? "")%string; [discriminate|].
  destruct (matches email_pattern (email data)); [auto | discriminate].
Qed.

Lemma invalid_form_never_signs_in_witness :
  let env := {| recaptcha_current := Some (Resolved (val "03AGdBq"));
                recaptcha_reset := Resolved tt;
                signIn_result := Resolved None |} in
  let data := {| email := "ana@lumi"; password := "secret" |} in
  validate data <> no_errors /\
  snd (handleSubmit env data initial) = (initial, []).
Proof.
cbv zeta.
assert (H : validate {| email := "ana@lumi"; password := "secret" |}
            <> no_errors) by (vm_compute; discriminate).
split; [exact H|].
apply (proj1 (invalid_form_never_signs_in
                {| recaptcha_current := Some (Resolved (val "03AGdBq"));
                   recaptcha_reset := Resolved tt;
                   signIn_result := Resolved None |}
                {| email := "ana@lumi"; password := "secret" |} initial)).
exact H.
Defined.

(** *** More on a submission *)

(** X4. Toggling the password visibility twice gives the state back; each
    toggle switches the input between [password] and [text] and touches
    neither the error nor the submission flag.  The form starts masked. *)
Theorem toggle_password_involutive st :
  togglePasswordVisibility (togglePasswordVisibility st) = st /\
  password_input_type (togglePasswordVisibility st)
  <> password_input_type st /\
  error (togglePasswordVisibility st) = error st /\
  isSubmitting (togglePasswordVisibility st) = isSubmitting st /\
  password_input_type initial = "password".
Proof.
destruct st as [[] e b]; repeat split; discriminate.
Qed.

(** The log holds every change of state: replaying it from the state the
    submission started in gives the state the submission ends in. *)
Lemma log_rebuilds_state env data st :
  fold_left apply_event (snd (run env data st)) st = fst (run env data st).
Proof. case_env env; compute_run; reflexivity. Qed.

(** X5. The submit button is disabled for the whole of a submission: the run
    starts by setting [isSubmitting], ends by clearing it, and sets it
    nowhere in between; at each call to the CAPTCHA widget, to [signIn] and
    to the router the state has [isSubmitting] set, so the button is
    disabled then, and it is enabled again when the run is over. *)
Theorem submitting_brackets_the_run env data st :
  (exists mid,
      snd (run env data st)
      = (SetIsSubmitting true :: mid ++ [SetIsSubmitting false])%list /\
      filter is_SetIsSubmitting mid = []) /\
  (forall n e,
      nth_error (snd (run env data st)) n = Some e ->
      is_call e = true ->
      SubmitButton_disabled (state_before n env data st) = true) /\
  state_before (length (snd (run env data st))) env data st
  = fst (run env data st) /\
  SubmitButton_disabled (fst (run env data st)) = false.
Proof.
split; [|split; [|split]].
- case_env env; compute_run;
    match goal with
    | |- exists mid, ?l = _ /\ _ => exists (removelast (tl l))
    end; repeat split.
- intros n e Hn He. unfold state_before. revert Hn.
  case_env env; compute_run;
    do 7 (try (destruct n as [|n]; simpl;
               [intros [= <-]; try discriminate He; reflexivity|]));
    destruct n; discriminate.
- unfold state_before. rewrite firstn_all. apply log_rebuilds_state.
- case_env env; compute_run; reflexivity.
Qed.

Lemma submitting_brackets_the_run_witness :
  let env := {| recaptcha_current := Some (Resolved (val "03AGdBq"));
                recaptcha_reset := Resolved tt;
                signIn_result := Resolved None |} in
  let data := {| email := "ana@lumi.com"; password := "secret" |} in
  let o := {| opt_email := "ana@lumi.com"; opt_password := "secret";
              opt_recaptchaToken := val "03AGdBq"; opt_redirect := false |} in
  (nth_error (snd (run env data initial)) 3 = Some (CallSignIn "user-login" o)
   /\ is_call (CallSignIn "user-login" o) = true) /\
  SubmitButton_disabled (state_before 3 env data initial) = true.
Proof.
cbv zeta. split; [split; reflexivity|].
apply (proj1 (proj2 (submitting_brackets_the_run
                       {| recaptcha_current := Some (Resolved (val "03AGdBq"));
                          recaptcha_reset := Resolved tt;
                          signIn_result := Resolved None |}
                       {| email := "ana@lumi.com"; password := "secret" |}
                       initial))
         3%nat
         (CallSignIn "user-login"
            {| opt_email := "ana@lumi.com"; opt_password := "secret";
               opt_recaptchaToken := val "03AGdBq"; opt_redirect := false |}));
  reflexivity.
Defined.

(** X6. [signIn] is called at most once per submission, for the provider
    [user-login], with the form's email and password, the token the widget
    gave, and [redirect: false]. *)
Theorem signIn_called_once_with_credentials env data st :
  (length (filter (fun e => match e with CallSignIn _ _ => true
                            | _ => false end)
             (snd (run env data st))) <= 1)%nat /\
  (forall p o,
      In (CallSignIn p o) (snd (run env data st)) ->
      p = "user-login" /\
      o = {| opt_email := email data; opt_password := password data;
             opt_recaptchaToken :=
               match token_obtained env with
               | Some tok => val tok
               | None => undefined
               end;
             opt_redirect := false |}).
Proof.
split.
- case_env env; compute_run; simpl; lia.
- intros p o Hin.
  case_env env; compute_run;
    repeat (destruct Hin as [Hin|Hin]; try discriminate Hin);
    try contradiction;
    injection Hin as <- <-; auto.
Qed.

Lemma signIn_called_once_with_credentials_witness :
  let env := {| recaptcha_current := Some (Resolved (val "03AGdBq"));
                recaptcha_reset := Resolved tt;
                signIn_result := Resolved None |} in
  let data := {| email := "ana@lumi.com"; password := "secret" |} in
  let o := {| opt_email := "ana@lumi.com"; opt_password := "secret";
              opt_recaptchaToken := val "03AGdBq"; opt_redirect := false |} in
  In (CallSignIn "user-login" o) (snd (run env data initial)) /\
  ("user-login" = "user-login" /\ o = o).
Proof.
cbv zeta.
assert (H : In (CallSignIn "user-login"
                  {| opt_email := "ana@lumi.com"; opt_password := "secret";
                     opt_recaptchaToken := val "03AGdBq";
                     opt_redirect := false |})
              (snd (run {| recaptcha_current := Some (Resolved (val "03AGdBq"));
                           recaptcha_reset := Resolved tt;
                           signIn_result := Resolved None |}
                      {| email := "ana@lumi.com"; password := "secret" |}
                      initial))) by (vm_compute; tauto).
split; [exact H|].
exact (proj2 (signIn_called_once_with_credentials _ _ _) _ _ H).
Defined.

(** X7. The widget is reset right after every [executeAsync] that settles,
    whatever the token; when [executeAsync] fails, or there is no widget,
    it is not reset. *)
Theorem reset_follows_executeAsync env data st :
  match recaptcha_current env with
  | Some (Resolved _) =>
      exists rest,
        snd (run env data st)
        = ([SetIsSubmitting true; ExecuteAsync; RecaptchaReset] ++ rest)%list
        /\ ~ In RecaptchaReset rest
  | Some Rejected =>
      In ExecuteAsync (snd (run env data st)) /\
      ~ In RecaptchaReset (snd (run env data st))
  | None =>
      ~ In ExecuteAsync (snd (run env data st)) /\
      ~ In RecaptchaReset (snd (run env data st))
  end.
Proof.
case_env env; compute_run;
  try (eexists; split; [reflexivity|]);
  try split; simpl; intuition discriminate.
Qed.

(** X8. The handler never touches [showPassword], and a run that succeeds
    leaves the error as it was: an earlier message is not cleared. *)
Theorem handleSignIn_frame env data st :
  showPassword (fst (run env data st)) = showPassword st /\
  (succeeds env = true -> error (fst (run env data st)) = error st).
Proof.
case_env env; compute_run; split; try reflexivity; discriminate.
Qed.

Lemma handleSignIn_frame_witness :
  let env := {| recaptcha_current := Some (Resolved (val "03AGdBq"));
                recaptcha_reset := Resolved tt;
                signIn_result := Resolved (Some {| resp_error := null |}) |} in
  let data := {| email := "ana@lumi.com"; password := "secret" |} in
  let st := {| showPassword := false; error := "CredentialsSignin";
               isSubmitting := false |} in
  succeeds env = true /\
  error (fst (run env data st)) = "CredentialsSignin".
Proof.
split; [reflexivity|].
apply (proj2 (handleSignIn_frame
                {| recaptcha_current := Some (Resolved (val "03AGdBq"));
                   recaptcha_reset := Resolved tt;
                   signIn_result := Resolved (Some {| resp_error := null |}) |}
                {| email := "ana@lumi.com"; password := "secret" |}
                {| showPassword := false; error := "CredentialsSignin";
                   isSubmitting := false |})).
reflexivity.
Defined.

(** X9. Which message a failed submission shows: the error [signIn] reports is
    shown as it is; a call that throws gives the generic message, whichever
    call it was. *)
Theorem failure_messages env data st :
  (forall e, token_obtained env <> None ->
             recaptcha_reset env = Resolved tt ->
             signIn_error env = Some e ->
             error (fst (run env data st)) = e) /\
  (recaptcha_current env = Some Rejected \/
   (recaptcha_current env <> None /\ recaptcha_reset env = Rejected) \/
   (token_obtained env <> None /\ signIn_result env = Rejected) ->
   error (fst (run env data st)) = signin_failed).
Proof.
split.
- intros e Htok Hreset Herr.
  case_env env; compute_run; try discriminate; try congruence.
- intros H.
  case_env env; compute_run;
    destruct H as [H | [[H1 H2] | [H1 H2]]];
    try discriminate; try congruence; reflexivity.
Qed.

Lemma failure_messages_witness :
  let env := {| recaptcha_current := Some (Resolved (val "03AGdBq"));
                recaptcha_reset := Resolved tt;
                signIn_result :=
                  Resolved (Some {| resp_error := val "CredentialsSignin" |}) |} in
  let data := {| email := "ana@lumi.com"; password := "wrong" |} in
  (token_obtained env <> None /\ recaptcha_reset env = Resolved tt /\
   signIn_error env = Some "CredentialsSignin") /\
  error (fst (run env data initial)) = "CredentialsSignin".
Proof.
cbv zeta. split; [repeat split; discriminate|].
apply (proj1 (failure_messages
                {| recaptcha_current := Some (Resolved (val "03AGdBq"));
                   recaptcha_reset := Resolved tt;
                   signIn_result :=
                     Resolved (Some {| resp_error := val "CredentialsSignin" |}) |}
                {| email := "ana@lumi.com"; password := "wrong" |} initial)
             "CredentialsSignin").
- discriminate.
- reflexivity.
- reflexivity.
Defined.

End SignInFieldFacts.

(** ** The logout button *)

Section LogoutFacts.
Import Logout.

(** X10. Logging out asks [signOut] first, with [redirect: false]; the redirect
    to [/] follows exactly when [signOut] resolves.  When it rejects, no
    redirect happens and the rejection is passed on. *)
Theorem logout_redirects_after_signOut result :
  hd_error (snd (logout result [])) = Some (CallSignOut false) /\
  (In (RouterReplace "/") (snd (logout result []))
   <-> exists a, result = SignIn.Resolved a) /\
  (fst (logout result []) = SignIn.Throw <-> result = SignIn.Rejected) /\
  (forall href, In (RouterReplace href) (snd (logout result [])) ->
                href = "/").
Proof.
destruct result as [[]|]; cbn; repeat split;
  try (intros; eauto; intuition (discriminate || congruence)).
- intros [a H]; discriminate.
Qed.

Lemma logout_redirects_after_signOut_witness :
  In (RouterReplace "/") (snd (logout (SignIn.Resolved tt) [])) /\
  "/" = "/".
Proof.
assert (H : In (RouterReplace "/") (snd (logout (SignIn.Resolved tt) [])))
  by (vm_compute; tauto).
split; [exact H|].
exact (proj2 (proj2 (proj2 (logout_redirects_after_signOut
                               (SignIn.Resolved tt)))) "/" H).
Defined.

End LogoutFacts.

(** ** More on the profile form *)

Section ProfileMoreFacts.
Import Js Profile.

(** X11. The handler looks at the first file only and reads it exactly when its
    size is at most 5,120,000 bytes; a larger file sets the size error and
    leaves preview and pending upload alone. *)
Theorem image_read_iff_at_most_5120000 file rest st :
  snd (handleImageChange (Some (file :: rest)) st)
  = (if size file <=? 5120000 then Some file else None) /\
  (size file <= 5120000 ->
   fst (handleImageChange (Some (file :: rest)) st) = st) /\
  (5120000 < size file ->
   let st' := fst (handleImageChange (Some (file :: rest)) st) in
   error st' = Some size_error /\
   preview st' = preview st /\ selectedFile st' = selectedFile st).
Proof.
split; [|split].
- destruct (Z.leb_spec (size file) 5120000).
  + now rewrite handleImageChange_within_limit by lia.
  + now rewrite handleImageChange_over_limit by lia.
- intros H. now rewrite handleImageChange_within_limit by lia.
- intros H. rewrite handleImageChange_over_limit by lia. cbv zeta. simpl fst.
  now rewrite setError_error, setError_preview, setError_selectedFile.
Qed.

Lemma image_read_iff_at_most_5120000_witness :
  let edge := {| file_name := "edge.png"; size := 5120000 |} in
  let over := {| file_name := "over.png"; size := 5120001 |} in
  let st := initial (Some "u1") in
  (size edge <= 5120000 /\ fst (handleImageChange (Some [edge]) st) = st) /\
  (5120000 < size over /\
   error (fst (handleImageChange (Some [over]) st)) = Some size_error).
Proof.
cbv zeta. split.
- split; [simpl; lia|].
  apply (image_read_iff_at_most_5120000
           {| file_name := "edge.png"; size := 5120000 |} []
           (initial (Some "u1"))).
  simpl; lia.
- split; [simpl; lia|].
  apply (image_read_iff_at_most_5120000
           {| file_name := "over.png"; size := 5120001 |} []
           (initial (Some "u1"))).
  simpl; lia.
Defined.

(** X12. While the size error is shown, choosing another oversized file changes
    nothing: the running timer is not restarted, so the popup goes when the
    first timer is due. *)
Theorem repeated_size_error_keeps_timer file rest st :
  5000 * 1024 < size file ->
  error st = Some size_error ->
  fst (handleImageChange (Some (file :: rest)) st) = st.
Proof.
intros Hs He. rewrite handleImageChange_over_limit by lia. simpl.
unfold setError, same. now rewrite He, (proj2 (strict_eq_true _ _) eq_refl).
Qed.

Lemma repeated_size_error_keeps_timer_witness :
  let over := {| file_name := "over.png"; size := 6000000 |} in
  let st := elapse 3000 (fst (handleImageChange (Some [over])
                                (initial (Some "u1")))) in
  (5000 * 1024 < size over /\ error st = Some size_error) /\
  fst (handleImageChange (Some [over]) st) = st /\
  error_timer st = Some 2000.
Proof.
cbv zeta. split; [split; [simpl; lia | reflexivity]|].
split; [|reflexivity].
apply (repeated_size_error_keeps_timer
         {| file_name := "over.png"; size := 6000000 |} []).
- simpl; lia.
- reflexivity.
Defined.

(** X13. A read that fails ([reader.result] is [null]) discards an earlier
    selection: preview and pending upload become [null], the picture no
    longer counts as a change, and a submission sends no picture. *)
Theorem failed_read_discards_selection file d st :
  size file <= 5000 * 1024 ->
  let st' := select_image file None st in
  selectedFile st' = None /\ preview st' = None /\
  isFormChanged st'
  = match initialData st with
    | None => false
    | Some i => negb (strict_eq (watchedName st) (Some (name i)))
                || negb (strict_eq (watchedEmail st) (Some (email i)))
    end /\
  snd (onSubmit d st')
  = [updateUserProfile (session_user_id st)
       {| body_name := form_name d; body_email := form_email d;
          body_profilePicture := undefined |}].
Proof.
intros H. unfold select_image.
rewrite handleImageChange_within_limit by assumption. cbv zeta.
repeat split. unfold isFormChanged, onloadend. simpl.
destruct (initialData st); [now rewrite orb_false_r | reflexivity].
Qed.

Lemma failed_read_discards_selection_witness :
  let ok := {| file_name := "me.png"; size := 2048 |} in
  let bad := {| file_name := "broken.png"; size := 10 |} in
  let st := select_image ok (Some "data:image/png;base64,iVBOR")
              (initial (Some "u1")) in
  size bad <= 5000 * 1024 /\
  selectedFile st = Some "data:image/png;base64,iVBOR" /\
  selectedFile (select_image bad None st) = None /\
  preview (select_image bad None st) = None.
Proof.
cbv zeta. split; [simpl; lia|]. split; [reflexivity|].
pose proof (failed_read_discards_selection
              {| file_name := "broken.png"; size := 10 |}
              {| form_name := "Ana"; form_email := "ana@lumi.com" |}
              (select_image {| file_name := "me.png"; size := 2048 |}
                 (Some "data:image/png;base64,iVBOR") (initial (Some "u1"))))
  as H.
destruct H as (H1 & H2 & _); [simpl; lia|]. split; assumption.
Defined.

Lemma ProfileData_eqb_eq a b : ProfileData_eqb a b = true <-> a = b.
Proof.
unfold ProfileData_eqb. split.
- intros H. apply andb_true_iff in H as [H Hp].
  apply andb_true_iff in H as [H He]. apply andb_true_iff in H as [Hi Hn].
  apply strict_eq_true in Hi. apply String.eqb_eq in Hn, He.
  destruct a as [ia na ea pa], b as [ib nb eb pb]; simpl in *. subst.
  destruct pa, pb; try discriminate; try reflexivity.
  apply String.eqb_eq in Hp. now subst.
- intros <-. rewrite (proj2 (strict_eq_true _ _) eq_refl), !String.eqb_refl.
  simpl. destruct (profilePicture a); auto using String.eqb_refl.
Qed.

Lemma query_data_changed d st :
  truthy_opt (session_user_id st) = true -> data st <> Some d ->
  query_data d st
  = setInitialData (Some d)
      (setPreview (Some (or_string (profilePicture d) placeholder))
         (with_watchedEmail (Some (email d))
            (with_watchedName (Some (name d)) (with_data (Some d) st)))).
Proof.
intros Hs Hd. unfold query_data. rewrite Hs.
destruct (data st) as [old|]; [|reflexivity].
destruct (ProfileData_eqb old d) eqn:E; [|reflexivity].
apply ProfileData_eqb_eq in E. congruence.
Qed.

Lemma query_data_same d st : data st = Some d -> query_data d st = st.
Proof.
intros Hd. unfold query_data. rewrite Hd.
rewrite (proj2 (ProfileData_eqb_eq d d) eq_refl).
now destruct (truthy_opt (session_user_id st)).
Qed.

(** X14. With a session id, a fetched profile that differs from the one
    the form has fills name and email, becomes the initial data, and shows
    its picture, or the placeholder when it has none or an empty one;
    right after it the form counts as changed only if a picture is already
    selected.  A delivery of the profile the form already has changes
    nothing, so what the user has typed stays, and without a session id
    the query does not run. *)
Theorem fetched_profile_fills_form d st :
  (truthy_opt (session_user_id st) = true -> data st <> Some d ->
   let st' := query_data d st in
   watchedName st' = Some (name d) /\ watchedEmail st' = Some (email d) /\
   initialData st' = Some d /\ data st' = Some d /\
   preview st'
   = Some (match profilePicture d with
           | val p => if (p =? "")%string then placeholder else p
           | _ => placeholder
           end) /\
   selectedFile st' = selectedFile st /\
   isFormChanged st'
   = match selectedFile st with Some _ => true | None => false end) /\
  (data st = Some d -> query_data d st = st) /\
  (truthy_opt (session_user_id st) = false -> query_data d st = st).
Proof.
split; [|split].
- intros Hs Hd. cbv zeta. rewrite query_data_changed by assumption. simpl.
  repeat split.
  + unfold or_string, truthy_string.
    destruct (profilePicture d) as [| |p]; try reflexivity.
    now destruct (p =? "")%string.
  + unfold isFormChanged. simpl. now rewrite !String.eqb_refl.
- apply query_data_same.
- intros Hs. unfold query_data. now rewrite Hs.
Qed.

Lemma fetched_profile_fills_form_witness :
  let d := {| id := Some "u1"; name := "Ana"; email := "ana@lumi.com";
              profilePicture := val "" |} in
  let st := initial (Some "u1") in
  let typed := run [QueryData d; TypeName "Ana Maria"] st in
  (truthy_opt (session_user_id st) = true /\ data st <> Some d) /\
  preview (query_data d st) = Some placeholder /\
  isFormChanged (query_data d st) = false /\
  (data typed = Some d /\
   watchedName (query_data d typed) = Some "Ana Maria") /\
  query_data d (initial None) = initial None.
Proof.
cbv zeta.
pose proof (fetched_profile_fills_form
              {| id := Some "u1"; name := "Ana"; email := "ana@lumi.com";
                 profilePicture := val "" |} (initial (Some "u1")))
  as (H & _ & _).
assert (Hd : data (initial (Some "u1"))
             <> Some {| id := Some "u1"; name := "Ana";
                        email := "ana@lumi.com"; profilePicture := val "" |})
  by discriminate.
split; [split; [reflexivity | exact Hd]|].
destruct (H eq_refl Hd) as (_ & _ & _ & _ & Hp & _ & Hc).
split; [exact Hp|]. split; [exact Hc|].
split.
- split; [reflexivity|].
  rewrite (proj1 (proj2 (fetched_profile_fills_form
                           {| id := Some "u1"; name := "Ana";
                              email := "ana@lumi.com";
                              profilePicture := val "" |}
                           (run [QueryData {| id := Some "u1"; name := "Ana";
                                              email := "ana@lumi.com";
                                              profilePicture := val "" |};
                                 TypeName "Ana Maria"]
                              (initial (Some "u1"))))) eq_refl).
  reflexivity.
- apply (fetched_profile_fills_form
           {| id := Some "u1"; name := "Ana"; email := "ana@lumi.com";
              profilePicture := val "" |} (initial None)).
  reflexivity.
Defined.

(** X15. A profile that differs from the one the form has, fetched after
    a picture was selected, replaces the preview but keeps the pending
    upload: the form still counts as changed, and what is previewed is then
    the fetched picture, not the one that would be sent. *)
Theorem refetch_keeps_pending_upload d file uri st :
  truthy_opt (session_user_id st) = true ->
  data st <> Some d ->
  size file <= 5000 * 1024 ->
  let st' := query_data d (select_image file (Some uri) st) in
  selectedFile st' = Some uri /\
  preview st' = Some (or_string (profilePicture d) placeholder) /\
  isFormChanged st' = true.
Proof.
intros Hs Hd Hf. unfold select_image.
rewrite handleImageChange_within_limit by assumption. cbv zeta.
rewrite query_data_changed by assumption. simpl.
repeat split. unfold isFormChanged. simpl. apply orb_true_r.
Qed.

Lemma refetch_keeps_pending_upload_witness :
  let old := {| id := Some "u1"; name := "Ana"; email := "ana@lumi.com";
                profilePicture := undefined |} in
  let d := {| id := Some "u1"; name := "Ana"; email := "ana@lumi.com";
              profilePicture := val "https://cdn.lumi/ana.png" |} in
  let file := {| file_name := "me.png"; size := 2048 |} in
  let st := query_data old (initial (Some "u1")) in
  let st' := query_data d
               (select_image file (Some "data:image/png;base64,iVBOR") st) in
  (truthy_opt (session_user_id st) = true /\ data st <> Some d /\
   size file <= 5000 * 1024) /\
  selectedFile st' = Some "data:image/png;base64,iVBOR" /\
  preview st' = Some "https://cdn.lumi/ana.png" /\
  isFormChanged st' = true.
Proof.
cbv zeta. split; [split; [reflexivity | split; [discriminate | simpl; lia]]|].
apply (refetch_keeps_pending_upload
         {| id := Some "u1"; name := "Ana"; email := "ana@lumi.com";
            profilePicture := val "https://cdn.lumi/ana.png" |}
         {| file_name := "me.png"; size := 2048 |}
         "data:image/png;base64,iVBOR"
         (query_data {| id := Some "u1"; name := "Ana";
                        email := "ana@lumi.com";
                        profilePicture := undefined |}
            (initial (Some "u1"))));
  [reflexivity | discriminate | simpl; lia].
Defined.

(** *** Invariants of the reachable states *)

Lemma setError_frame v st :
  initialData (setError v st) = initialData st /\
  data (setError v st) = data st.
Proof. unfold setError. destruct (same v (error st)); now split. Qed.

Lemma setSuccess_frame v st :
  initialData (setSuccess v st) = initialData st /\
  data (setSuccess v st) = data st.
Proof. unfold setSuccess. destruct (same v (success st)); now split. Qed.

Lemma elapse_frame ms st :
  initialData (elapse ms st) = initialData st /\
  data (elapse ms st) = data st.
Proof.
unfold elapse, elapse_success, elapse_error.
destruct (error_timer st) as [r|].
- destruct (r <=? ms).
  + destruct (setError_frame None (with_error (error st) None st)) as [E1 E2].
    simpl in E1, E2.
    destruct (success_timer _) as [q|]; [|now split].
    destruct (q <=? ms); [|now split].
    destruct (setSuccess_frame None
                (with_success (success (setError None
                                          (with_error (error st) None st)))
                   None (setError None (with_error (error st) None st))))
      as [F1 F2].
    simpl in F1, F2. split; congruence.
  + simpl. destruct (success_timer st) as [q|]; [|now split].
    destruct (q <=? ms); [|now split].
    destruct (setSuccess_frame None
                (with_success (success st) None
                   (with_error (error st) (Some (r - ms)) st))) as [F1 F2].
    simpl in F1, F2. split; congruence.
- destruct (success_timer st) as [q|]; [|now split].
  destruct (q <=? ms); [|now split].
  destruct (setSuccess_frame None (with_success (success st) None st))
    as [F1 F2].
  simpl in F1, F2. split; congruence.
Qed.

Lemma dispatch_initialData e st :
  initialData st = data st ->
  initialData (fst (dispatch e st)) = data (fst (dispatch e st)).
Proof.
intros H. destruct e; simpl; try exact H.
- destruct (query_data_cases d st) as [-> | ->]; [exact H | reflexivity].
- unfold handleImageChange.
  destruct (first_file files) as [file|]; [|exact H].
  destruct (size file >? 5000 * 1024); [|exact H]. simpl.
  destruct (setError_frame (Some size_error) st); congruence.
- unfold submit, handleSubmit.
  destruct (SubmitButton_disabled st); [exact H|].
  destruct (watchedName st) as [n|]; [|exact H].
  destruct (watchedEmail st) as [m|]; [|exact H].
  destruct (truthy_string n && truthy_string m); exact H.
- unfold onSuccess.
  destruct (setSuccess_frame (Some "Profile updated successfully")
              (with_isPending false st)) as [-> ->]. exact H.
- unfold onError.
  destruct (setError_frame (Some "Failed to update profile")
              (with_isPending false st)) as [-> ->]. exact H.
- destruct (setError_frame None st); congruence.
- destruct (setSuccess_frame None st); congruence.
- destruct (elapse_frame (Z.max 0 ms) st); congruence.
Qed.

Lemma setError_cases v st :
  error (setError v st) = v /\ success (setError v st) = success st.
Proof. split; [apply setError_error | apply setError_success]. Qed.

Lemma setSuccess_cases v st :
  success (setSuccess v st) = v /\ error (setSuccess v st) = error st.
Proof. split; [apply setSuccess_success | apply setSuccess_error]. Qed.

(** The messages the form can show. *)
Lemma dispatch_messages e st :
  (error st = None \/ error st = Some size_error \/
   error st = Some "Failed to update profile") /\
  (success st = None \/ success st = Some "Profile updated successfully") ->
  let st' := fst (dispatch e st) in
  (error st' = None \/ error st' = Some size_error \/
   error st' = Some "Failed to update profile") /\
  (success st' = None \/ success st' = Some "Profile updated successfully").
Proof.
intros [He Hs]. cbv zeta. destruct e; simpl; try (split; assumption).
- destruct (query_data_cases d st) as [-> | ->]; split; assumption.
- unfold handleImageChange.
  destruct (first_file files) as [file|]; [|split; assumption].
  destruct (size file >? 5000 * 1024); [|split; assumption]. simpl.
  destruct (setError_cases (Some size_error) st) as [-> ->]. auto.
- unfold submit, handleSubmit.
  destruct (SubmitButton_disabled st); [split; assumption|].
  destruct (watchedName st) as [n|]; [|split; assumption].
  destruct (watchedEmail st) as [m|]; [|split; assumption].
  destruct (truthy_string n && truthy_string m); split; assumption.
- unfold onSuccess.
  destruct (setSuccess_cases (Some "Profile updated successfully")
              (with_isPending false st)) as [-> ->]. auto.
- unfold onError.
  destruct (setError_cases (Some "Failed to update profile")
              (with_isPending false st)) as [-> ->]. auto.
- destruct (setError_cases None st) as [-> ->]. auto.
- destruct (setSuccess_cases None st) as [-> ->]. auto.
- rewrite elapse_error_field, elapse_error_error.
  rewrite elapse_success_field, elapse_success_success.
  split.
  + destruct (error_timer st) as [r|]; [|assumption].
    destruct (r <=? Z.max 0 ms); auto.
  + destruct (success_timer st) as [r|]; [|assumption].
    destruct (r <=? Z.max 0 ms); auto.
Qed.

(** X16. In every reachable state the initial data is the query's data, so the
    button's [!data] test adds nothing to [isFormChanged]'s own test. *)
Theorem initialData_is_query_data st :
  reachable st ->
  initialData st = data st /\ isDisabled st = negb (isFormChanged st).
Proof.
intros (session & es & ->).
assert (H : initialData (run es (initial session))
            = data (run es (initial session))).
{ generalize (initial session) (eq_refl : initialData (initial session)
                                          = data (initial session)).
  induction es as [|e es IH]; intros st H; simpl; [exact H|].
  apply IH, dispatch_initialData, H. }
split; [exact H|]. unfold isDisabled, isFormChanged. rewrite H.
now destruct (data (run es (initial session))).
Qed.

Lemma initialData_is_query_data_witness :
  let d := {| id := Some "u1"; name := "Ana"; email := "ana@lumi.com";
              profilePicture := undefined |} in
  let st := run [QueryData d; TypeName "Ana M"; Submit; MutationError]
              (initial (Some "u1")) in
  reachable st /\ initialData st = data st.
Proof.
cbv zeta.
assert (R : reachable
              (run [QueryData {| id := Some "u1"; name := "Ana";
                                 email := "ana@lumi.com";
                                 profilePicture := undefined |};
                    TypeName "Ana M"; Submit; MutationError]
                 (initial (Some "u1")))).
{ exists (Some "u1"). eexists. reflexivity. }
split; [exact R|].
exact (proj1 (initialData_is_query_data _ R)).
Defined.

(** X17. The form only ever shows three messages of its own: the size error,
    the generic update failure, and the update success.  A failed update
    never shows what the server answered. *)
Theorem only_fixed_messages st :
  reachable st ->
  (error st = None \/ error st = Some size_error \/
   error st = Some "Failed to update profile") /\
  (success st = None \/ success st = Some "Profile updated successfully").
Proof.
intros (session & es & ->).
assert (H0 : (error (initial session) = None \/
              error (initial session) = Some size_error \/
              error (initial session) = Some "Failed to update profile") /\
             (success (initial session) = None \/
              success (initial session)
              = Some "Profile updated successfully")) by (simpl; auto).
revert H0. generalize (initial session).
induction es as [|e es IH]; intros st H; simpl; [exact H|].
apply IH. exact (dispatch_messages e st H).
Qed.

Lemma only_fixed_messages_witness :
  let big := {| file_name := "big.png"; size := 9000000 |} in
  let st := run [ImageChange (Some [big]); MutationError]
              (initial (Some "u1")) in
  reachable st /\ error st = Some "Failed to update profile".
Proof.
cbv zeta.
assert (R : reachable
              (run [ImageChange (Some [{| file_name := "big.png";
                                          size := 9000000 |}]);
                    MutationError] (initial (Some "u1")))).
{ exists (Some "u1"). eexists. reflexivity. }
split; [exact R|].
destruct (only_fixed_messages _ R) as [[H | [H | H]] _];
  [discriminate H | discriminate H | exact H].
Defined.

(** *** The submit button and the requests *)

Lemma strict_eq_false a b : strict_eq a b = false <-> a <> b.
Proof.
split.
- intros H E. apply strict_eq_true in E. congruence.
- intros H. destruct (strict_eq a b) eqn:E; [|reflexivity].
  apply strict_eq_true in E. contradiction.
Qed.

(** X18. The submit button is enabled exactly when no update is pending, a
    profile has been fetched, and the name, the email or the picture
    differs from it. *)
Theorem submit_enabled_iff st :
  SubmitButton_disabled st = false <->
  isPending st = false /\ data st <> None /\
  exists i, initialData st = Some i /\
            (watchedName st <> Some (name i) \/
             watchedEmail st <> Some (email i) \/
             selectedFile st <> None).
Proof.
unfold SubmitButton_disabled, isDisabled, isFormChanged. split.
- intros H. apply orb_false_iff in H as [Hp H].
  apply orb_false_iff in H as [Hd H]. apply negb_false_iff in H.
  split; [exact Hp|]. split; [now destruct (data st)|].
  destruct (initialData st) as [i|]; [|discriminate]. exists i.
  split; [reflexivity|].
  apply orb_true_iff in H as [H | H];
    [apply orb_true_iff in H as [H | H]|].
  + left. now apply strict_eq_false, negb_true_iff.
  + right; left. now apply strict_eq_false, negb_true_iff.
  + right; right. now destruct (selectedFile st).
- intros (Hp & Hd & i & Hi & H). rewrite Hp, Hi.
  destruct (data st); [|contradiction]. simpl. apply negb_false_iff.
  destruct H as [H | [H | H]].
  + apply strict_eq_false in H. now rewrite H.
  + apply strict_eq_false in H. rewrite H. apply orb_true_iff. left.
    apply orb_true_r.
  + destruct (selectedFile st); [apply orb_true_r | contradiction].
Qed.

(** X19. A request goes out only when the enabled submit button is activated;
    it carries the current name and email, both non-empty, the session's
    user id, and [selectedFile || undefined] as the picture. *)
Theorem requests_only_from_enabled_submit e st r :
  In r (snd (dispatch e st)) ->
  e = Submit /\ SubmitButton_disabled st = false /\
  exists n m,
    watchedName st = Some n /\ watchedEmail st = Some m /\
    n <> "" /\ m <> "" /\
    r = updateUserProfile (session_user_id st)
          {| body_name := n; body_email := m;
             body_profilePicture := or_undefined (selectedFile st) |}.
Proof.
destruct e; simpl; try contradiction.
unfold submit, handleSubmit.
destruct (SubmitButton_disabled st); [contradiction|].
destruct (watchedName st) as [n|]; [|contradiction].
destruct (watchedEmail st) as [m|]; [|contradiction].
destruct (truthy_string n && truthy_string m) eqn:E; [|contradiction].
apply andb_true_iff in E as [En Em].
apply truthy_string_nonempty in En, Em.
simpl. intros [<- | []]. split; [reflexivity|]. split; [reflexivity|].
exists n, m. auto 6.
Qed.

Lemma requests_only_from_enabled_submit_witness :
  let d := {| id := Some "u1"; name := "Ana"; email := "ana@lumi.com";
              profilePicture := undefined |} in
  let st := run [QueryData d; TypeEmail "ana@brightflow.com"]
              (initial (Some "u1")) in
  let r := updateUserProfile (Some "u1")
             {| body_name := "Ana"; body_email := "ana@brightflow.com";
                body_profilePicture := undefined |} in
  In r (snd (dispatch Submit st)) /\ SubmitButton_disabled st = false.
Proof.
cbv zeta.
assert (H : In (updateUserProfile (Some "u1")
                  {| body_name := "Ana"; body_email := "ana@brightflow.com";
                     body_profilePicture := undefined |})
              (snd (dispatch Submit
                      (run [QueryData {| id := Some "u1"; name := "Ana";
                                         email := "ana@lumi.com";
                                         profilePicture := undefined |};
                            TypeEmail "ana@brightflow.com"]
                         (initial (Some "u1")))))) by (left; reflexivity).
split; [exact H|].
exact (proj1 (proj2 (requests_only_from_enabled_submit _ _ _ H))).
Defined.

Lemma submit_sends st r :
  In r (snd (submit st)) ->
  submit st = (with_isPending true st, [r]).
Proof.
unfold submit, handleSubmit.
destruct (SubmitButton_disabled st); [contradiction|].
destruct (watchedName st) as [n|]; [|contradiction].
destruct (watchedEmail st) as [m|]; [|contradiction].
destruct (truthy_string n && truthy_string m); [|contradiction].
simpl. intros [<- | []]. reflexivity.
Qed.

(** X20. While an update is pending the button is disabled: a submission sends
    one request, and activating the button again before the update settles
    sends nothing. *)
Theorem no_second_request_while_pending st r :
  In r (snd (submit st)) ->
  snd (submit st) = [r] /\
  isPending (fst (submit st)) = true /\
  SubmitButton_disabled (fst (submit st)) = true /\
  submit (fst (submit st)) = (fst (submit st), []).
Proof.
intros H. rewrite (submit_sends st r H). simpl.
repeat split.
Qed.

Lemma no_second_request_while_pending_witness :
  let d := {| id := Some "u1"; name := "Ana"; email := "ana@lumi.com";
              profilePicture := undefined |} in
  let st := run [QueryData d; TypeName "Ana Maria"] (initial (Some "u1")) in
  let r := updateUserProfile (Some "u1")
             {| body_name := "Ana Maria"; body_email := "ana@lumi.com";
                body_profilePicture := undefined |} in
  In r (snd (submit st)) /\
  submit (fst (submit st)) = (fst (submit st), []).
Proof.
cbv zeta.
assert (H : In (updateUserProfile (Some "u1")
                  {| body_name := "Ana Maria"; body_email := "ana@lumi.com";
                     body_profilePicture := undefined |})
              (snd (submit
                      (run [QueryData {| id := Some "u1"; name := "Ana";
                                         email := "ana@lumi.com";
                                         profilePicture := undefined |};
                            TypeName "Ana Maria"] (initial (Some "u1"))))))
  by (left; reflexivity).
split; [exact H|].
exact (proj2 (proj2 (proj2 (no_second_request_while_pending _ _ H)))).
Defined.

Lemma setSuccess_keeps v st :
  let st' := setSuccess v st in
  session_user_id st' = session_user_id st /\
  watchedName st' = watchedName st /\ watchedEmail st' = watchedEmail st /\
  selectedFile st' = selectedFile st /\ initialData st' = initialData st /\
  data st' = data st /\ isPending st' = isPending st.
Proof.
cbv zeta. unfold setSuccess. destruct (same v (success st)); simpl; auto 10.
Qed.

Lemma setError_keeps v st :
  let st' := setError v st in
  session_user_id st' = session_user_id st /\
  watchedName st' = watchedName st /\ watchedEmail st' = watchedEmail st /\
  selectedFile st' = selectedFile st /\ initialData st' = initialData st /\
  data st' = data st /\ isPending st' = isPending st.
Proof.
cbv zeta. unfold setError. destruct (same v (error st)); simpl; auto 10.
Qed.

(** What [submit] does depends only on these cells. *)
Lemma submit_requests_ext st1 st2 :
  session_user_id st1 = session_user_id st2 ->
  watchedName st1 = watchedName st2 ->
  watchedEmail st1 = watchedEmail st2 ->
  selectedFile st1 = selectedFile st2 ->
  initialData st1 = initialData st2 ->
  data st1 = data st2 ->
  isPending st1 = isPending st2 ->
  snd (submit st1) = snd (submit st2).
Proof.
intros Hs Hn He Hf Hi Hd Hp.
unfold submit, SubmitButton_disabled, isDisabled, isFormChanged,
  handleSubmit, onSubmit, mutate, mutationFn.
rewrite Hs, Hn, He, Hf, Hi, Hd, Hp.
destruct (isPending st2 || _); [reflexivity|].
destruct (watchedName st2); [|reflexivity].
destruct (watchedEmail st2); [|reflexivity].
destruct (truthy_string _ && _); reflexivity.
Qed.

(** X21. Neither outcome of an update resets the form: after it settles, with
    success or with an error, the same change can be sent again, and the
    button sends the same request as before. *)
Theorem settled_update_can_be_resent st r :
  In r (snd (submit st)) ->
  snd (submit (onSuccess (fst (submit st)))) = [r] /\
  snd (submit (onError (fst (submit st)))) = [r] /\
  selectedFile (onSuccess (fst (submit st))) = selectedFile st /\
  initialData (onSuccess (fst (submit st))) = initialData st.
Proof.
intros H. pose proof (submit_sends st r H) as E. rewrite E. simpl fst.
assert (Hr : snd (submit st) = [r]) by now rewrite E.
unfold onSuccess, onError.
destruct (setSuccess_keeps (Some "Profile updated successfully")
            (with_isPending false (with_isPending true st)))
  as (S1 & S2 & S3 & S4 & S5 & S6 & S7).
destruct (setError_keeps (Some "Failed to update profile")
            (with_isPending false (with_isPending true st)))
  as (E1 & E2 & E3 & E4 & E5 & E6 & E7).
simpl in *.
assert (Hp : isPending st = false).
{ revert H. unfold submit, SubmitButton_disabled.
  destruct (isPending st); [simpl; contradiction | reflexivity]. }
repeat split; try assumption.
- rewrite <- Hr. apply submit_requests_ext; congruence.
- rewrite <- Hr. apply submit_requests_ext; congruence.
Qed.

Lemma settled_update_can_be_resent_witness :
  let d := {| id := Some "u1"; name := "Ana"; email := "ana@lumi.com";
              profilePicture := undefined |} in
  let st := run [QueryData d; TypeName "Ana Maria"] (initial (Some "u1")) in
  let r := updateUserProfile (Some "u1")
             {| body_name := "Ana Maria"; body_email := "ana@lumi.com";
                body_profilePicture := undefined |} in
  In r (snd (submit st)) /\
  snd (submit (onSuccess (fst (submit st)))) = [r].
Proof.
cbv zeta.
assert (H : In (updateUserProfile (Some "u1")
                  {| body_name := "Ana Maria"; body_email := "ana@lumi.com";
                     body_profilePicture := undefined |})
              (snd (submit
                      (run [QueryData {| id := Some "u1"; name := "Ana";
                                         email := "ana@lumi.com";
                                         profilePicture := undefined |};
                            TypeName "Ana Maria"] (initial (Some "u1"))))))
  by (left; reflexivity).
split; [exact H|].
exact (proj1 (settled_update_can_be_resent _ _ H)).
Defined.

End ProfileMoreFacts.

(** ** More on the billet router *)

Section BilletMoreFacts.
Import Billet.


















(** X24. An upload without a file is not refused: a POST to /billet whose
    body has no file part, or only parts without a file name, reaches
    [uploadBillet] with no [req.file].  On every other method the file
    parts are not looked at: the request never fails in the upload
    middleware and no controller method gets a file. *)
Theorem upload_without_file_reaches_controller :
  (forall files,
      named_files files = [] ->
      handle billetRouter
        {| req_method := POST; req_path := "/billet"; req_files := files |}
      = Handled uploadBillet [] None) /\
  (forall req,
      req_method req <> POST ->
      handle billetRouter req <> UploadFailed /\
      forall h ps file,
        handle billetRouter req = Handled h ps file -> file = None).
Proof.
split.
- intros files N. unfold handle. rewrite dispatch_post_billet.
  cbv [middlewares handler run_middlewares run_middleware req_files].
  now rewrite N.
- intros req Hm. unfold handle.
  destruct (dispatch billetRouter req) as [r ps| | |] eqn:D;
    try (split; [discriminate | intros; discriminate]).
  apply next_found in D as [Hin M].
  apply route_match_handles in M. unfold handles_method in M.
  apply billetRouter_routes in Hin.
  destruct Hin as [-> | [-> | [-> | ->]]]; cbn [method] in M; simpl;
    try (split; [discriminate | now intros h ps' file [= _ _ <-]]).
  destruct (req_method req); try discriminate. now contradiction Hm.
Qed.

Lemma upload_without_file_reaches_controller_witness :
  let empty := {| part_fieldname := "file"; part_filename := "";
                  part_chunks := [] |} in
  named_files [empty] = [] /\
  handle billetRouter
    {| req_method := POST; req_path := "/billet"; req_files := [empty] |}
  = Handled uploadBillet [] None.
Proof.
cbv zeta. split; [reflexivity|].
apply (proj1 upload_without_file_reaches_controller
         [{| part_fieldname := "file"; part_filename := "";
             part_chunks := [] |}]).
reflexivity.
Defined.

End BilletMoreFacts.
